(** * socket-to-api: a shallow embedding of the bridge's core

    The development follows the Go packages of the repository:
    - [protocol]    (pkg/protocol/protocol.go): the wire codec,
    - [models]      (internal/models): rows, jobs and results,
    - [database]    (internal/database, Repository): the staging table,
    - [server]      (internal/server, ConnectionManager): the registry,
    - [transformer] (internal/transformer): payload conversion,
    - [api]         (internal/api, Client): the upstream client,
    - [worker]      (internal/worker): processor and pool.

    Conventions.  A Go [[]byte] is a [list byte]; the nil slice and the empty
    slice both denote the empty byte sequence.  A Go [error] is represented
    by its [Error()] text, [nil] by [None].  Go's fixed-width integers are
    [Z] with the wrap-around written where the source converts or
    increments.  Everything the program obtains from outside (database
    driver outcomes, socket writes, HTTP replies, the clock, the scheduler's
    choice in a [select]) is an explicit argument. *)

From Stdlib Require Import ZArith List String Lia.
From Stdlib.Strings Require Import Byte.
From Stdlib.Sorting Require Import Sorted.
From stdpp Require Import base gmap list strings pretty.

Open Scope Z_scope.

(** ** Go primitives shared by the packages *)

Module golang.

(** A Go [error] value: [nil] or the text [Error()] returns. *)
Definition error := option string.

(** [byte(v)]: keep the low eight bits. *)
Definition byte_of_Z (v : Z) : byte :=
  match Byte.of_N (Z.to_N (Z.land v 255)) with
  | Some b => b
  | None => x00
  end.

(** [uint32(b)], [int(b)] for a byte [b]. *)
Definition Z_of_byte (b : byte) : Z := Z.of_N (Byte.to_N b).

(** [uint32(v)] and [int64] wrap-around. *)
Definition uint32 (v : Z) : Z := v mod 2 ^ 32.
Definition int64 (v : Z) : Z := (v + 2 ^ 63) mod 2 ^ 64 - 2 ^ 63.

(** [make([]byte, n)]: [n] zero bytes. *)
Definition make (n : Z) : list byte := replicate (Z.to_nat n) x00.

(** [copy(dst[off:], src)]: overwrite [dst] from offset [off] with as much
    of [src] as fits; the length of [dst] never changes. *)
Definition copy_at (off : nat) (src dst : list byte) : list byte :=
  take off dst
    ++ take (length dst - off)%nat src
    ++ drop (off + length src)%nat dst.

(** [binary.BigEndian.PutUint32(b[off:off+4], v)]. *)
Definition PutUint32_at (off : nat) (v : Z) (b : list byte) : list byte :=
  <[(off + 3)%nat := byte_of_Z v]>
    (<[(off + 2)%nat := byte_of_Z (Z.shiftr v 8)]>
       (<[(off + 1)%nat := byte_of_Z (Z.shiftr v 16)]>
          (<[off := byte_of_Z (Z.shiftr v 24)]> b))).

(** [binary.BigEndian.Uint32(b)] on the four bytes [b0 b1 b2 b3]. *)
Definition Uint32 (b0 b1 b2 b3 : byte) : Z :=
  Z.lor (Z.lor (Z.lor (Z_of_byte b3) (Z.shiftl (Z_of_byte b2) 8))
               (Z.shiftl (Z_of_byte b1) 16))
        (Z.shiftl (Z_of_byte b0) 24).

(** An [io.Reader] over a byte stream: the bytes still to come, and the
    error [Read] reports once they are used up ([io.EOF] for a stream that
    has ended, a time-out or transport error otherwise). *)
Record Reader := mkReader { pending : list byte; at_end : string }.

Definition EOF : string := "EOF".
Definition ErrUnexpectedEOF : string := "unexpected EOF".

(** [bytes.NewReader(b)]. *)
Definition NewReader (b : list byte) : Reader := mkReader b EOF.

(** [io.ReadFull(r, buf)] with [len(buf) = n]: exactly [n] bytes, or an
    error; a stream that ends after some but not all bytes gives
    [io.ErrUnexpectedEOF], and what was there has been consumed. *)
Definition ReadFull (n : nat) (r : Reader) : Reader * (list byte + string) :=
  if (n <=? length (pending r))%nat
  then (mkReader (drop n (pending r)) (at_end r), inl (take n (pending r)))
  else (mkReader [] (at_end r),
        inr (if (0 <? length (pending r))%nat && String.eqb (at_end r) EOF
             then ErrUnexpectedEOF else at_end r)).

(** An [io.Writer] that keeps what each [Write] call was given, oldest
    first, and answers each call as the transport does. *)
Record Writer := mkWriter {
  writes : list (list byte);
  write_fails : list byte → error
}.

Definition Write (data : list byte) (w : Writer) : Writer * error :=
  (mkWriter (writes w ++ [data]) (write_fails w), write_fails w data).

(** [t.Sub(u)] on instants counted in nanoseconds: the difference, kept
    within the range of [time.Duration]. *)
Definition time_Sub (t u : Z) : Z :=
  Z.max (- 2 ^ 63) (Z.min (2 ^ 63 - 1) (t - u)).

End golang.

(** ** pkg/protocol *)

Module protocol.
Import golang.

Definition MessageType := byte.

Definition MessageTypeRequest : MessageType := x01.
Definition MessageTypeResponse : MessageType := x02.
Definition MessageTypeError : MessageType := x03.
Definition MessageTypePing : MessageType := x04.
Definition MessageTypePong : MessageType := x05.

Definition HeaderSize : Z := 8.
Definition MaxMessageSize : Z := 10 * 1024 * 1024.
Definition ProtocolVersion : byte := x01.

(** [Type] is reserved in Rocq: the field is [Type_]. *)
Record Message := mkMessage {
  Version : byte;
  Type_ : MessageType;
  Length : Z;
  Data : list byte
}.

(** [EncodeMessage]: the buffer is allocated zeroed and filled in place. *)
Definition EncodeMessage (msgType : MessageType) (data : list byte)
  : list byte + string :=
  let dataLen := Z.of_nat (length data) in
  if dataLen >? MaxMessageSize
  then inr ("message size " +:+ pretty dataLen +:+ " exceeds maximum "
              +:+ pretty MaxMessageSize)
  else
    let msg := make (HeaderSize + dataLen) in
    let msg := <[0%nat := ProtocolVersion]> msg in
    let msg := <[1%nat := msgType]> msg in
    let msg := PutUint32_at 2 (uint32 dataLen) msg in
    let msg := if dataLen >? 0
               then copy_at (Z.to_nat HeaderSize) data msg else msg in
    inl msg.

(** What [DecodeMessage] does besides returning: the reader it leaves
    behind and the buffers it allocated ([make] sizes, in order). *)
Record Decoded := mkDecoded {
  rest : Reader;
  allocs : list Z;
  outcome : Message + string
}.

Definition DecodeMessage (reader : Reader) : Decoded :=
  let header_alloc := [HeaderSize] in
  match ReadFull (Z.to_nat HeaderSize) reader with
  | (r1, inr err) =>
      mkDecoded r1 header_alloc (inr ("failed to read header: " +:+ err))
  | (r1, inl header) =>
      let msg := mkMessage (nth 0 header x00) (nth 1 header x00)
                   (Uint32 (nth 2 header x00) (nth 3 header x00)
                           (nth 4 header x00) (nth 5 header x00)) [] in
      if negb (Byte.eqb (Version msg) ProtocolVersion)
      then mkDecoded r1 header_alloc
             (inr ("unsupported protocol version: "
                     +:+ pretty (Z_of_byte (Version msg))))
      else if Length msg >? MaxMessageSize
      then mkDecoded r1 header_alloc
             (inr ("message size " +:+ pretty (Length msg)
                     +:+ " exceeds maximum " +:+ pretty MaxMessageSize))
      else if Length msg >? 0
      then
        match ReadFull (Z.to_nat (Length msg)) r1 with
        | (r2, inr err) =>
            mkDecoded r2 (header_alloc ++ [Length msg])
              (inr ("failed to read message data: " +:+ err))
        | (r2, inl data) =>
            mkDecoded r2 (header_alloc ++ [Length msg])
              (inl (mkMessage (Version msg) (Type_ msg) (Length msg) data))
        end
      else mkDecoded r1 header_alloc (inl msg)
  end.

(** The frame layout as the wire format is specified: [version:u8 |
    type:u8 | length:u32 big-endian | reserved:u16 | payload]. *)
Definition frame_layout (msgType : MessageType) (data : list byte)
  : list byte :=
  let len := Z.of_nat (length data) in
  ProtocolVersion :: msgType
    :: byte_of_Z (Z.shiftr len 24) :: byte_of_Z (Z.shiftr len 16)
    :: byte_of_Z (Z.shiftr len 8) :: byte_of_Z len
    :: x00 :: x00 :: data.

Definition ReadMessage := DecodeMessage.

Definition WriteMessage (writer : Writer) (msgType : MessageType)
    (data : list byte) : Writer * error :=
  match EncodeMessage msgType data with
  | inr err => (writer, Some err)
  | inl encoded => Write encoded writer
  end.

Definition CreatePingMessage : list byte + string :=
  EncodeMessage MessageTypePing [].

Definition CreatePongMessage : list byte + string :=
  EncodeMessage MessageTypePong [].

Definition CreateErrorMessage (errorMsg : string) : list byte + string :=
  EncodeMessage MessageTypeError (list_byte_of_string errorMsg).

End protocol.

(** ** internal/models *)

Module models.

(** [RequestStatus]: the five status texts the program writes. *)
Inductive RequestStatus :=
| StatusPending | StatusSending | StatusSent | StatusFailed | StatusComplete.

Definition status_text (s : RequestStatus) : string :=
  match s with
  | StatusPending => "pending"
  | StatusSending => "sending"
  | StatusSent => "sent"
  | StatusFailed => "failed"
  | StatusComplete => "complete"
  end.

#[global] Instance RequestStatus_eq_dec : EqDecision RequestStatus.
Proof. solve_decision. Defined.

(** Each Go struct is a record in a module of its own, so that the fields
    keep their names. *)
Module UnsendData.
Record t := mk {
  ID : Z;
  ClientPort : Z;
  BinaryData : list byte;
  Status : RequestStatus;
  CreatedAt : Z;
  UpdatedAt : Z;
  RetryCount : Z;
  LastError : option string
}.
End UnsendData.

Module APIResponse.
Record t := mk {
  ID : Z;
  RequestID : Z;
  StatusCode : Z;
  ResponseBody : list byte;
  CreatedAt : Z
}.
End APIResponse.

Module ProcessingJob.
Record t := mk {
  Request : UnsendData.t;
  RetryCount : Z;
  SubmittedAt : Z
}.
End ProcessingJob.

Module ProcessingResult.
Record t := mk {
  RequestID : Z;
  ClientPort : Z;
  Success : bool;
  Response : list byte;
  Error : golang.error;
  ProcessedAt : Z
}.
End ProcessingResult.

(** [interface{}] values that [encoding/json] produces. *)
#[warnings="-register-all"]
Inductive json :=
| JNull
| JBool (b : bool)
| JNumber (n : Z)
| JString (s : string)
| JArray (l : list json)
| JObject (fields : list (string * json)).

Module APIRequest.
Record t := mk {
  RequestID : string;
  Timestamp : string;
  ClientPort : Z;
  Data : option (gmap string json)
}.
End APIRequest.

Module APIResponsePayload.
Record t := mk {
  RequestID : string;
  Status : string;
  StatusCode : Z;
  Message : string;
  Data : option (gmap string json);
  Timestamp : string
}.
End APIResponsePayload.

Module ConnectionInfo.
Record t := mk {
  Port : Z;
  RemoteAddr : string;
  ConnectedAt : Z;
  LastActive : Z;
  MessagesSent : Z;
  MessagesReceived : Z
}.
End ConnectionInfo.

End models.

(** ** internal/config *)

Module config.

Record APIConfig := mkAPIConfig {
  BaseURL : string;
  Timeout : Z;
  MaxRetries : Z;
  RetryDelay : Z;
  MaxIdleConns : Z;
  MaxIdleConnsPerHost : Z;
  TLSInsecureSkip : bool
}.

Record WorkerConfig := mkWorkerConfig {
  PoolSize : Z;
  QueueSize : Z;
  ProcessTimeout : Z
}.

(** The [API] and [Worker] parts of [Default()]; durations in nanoseconds. *)
Definition Default_API : APIConfig :=
  mkAPIConfig EmptyString (30 * 1000000000) 3 (1 * 1000000000) 100 10 false.

Definition Default_Worker : WorkerConfig :=
  mkWorkerConfig 100 1000 (60 * 1000000000).

End config.

(** ** internal/database: Repository *)

Module database.
Import golang models.

(** The two tables.  [unsend_data] is keyed by its primary key [id];
    [api_responses] only ever grows. *)
Record DB := mkDB {
  unsend_data : gmap Z UnsendData.t;
  api_responses : list APIResponse.t
}.

(** How a query can fail in [FetchPendingRequests]. *)
Inductive FetchFailure :=
| QueryFailed (e : string)
| ScanFailed (e : string)
| RowsFailed (e : string).

(** [ORDER BY created_at ASC] as an insertion into a sorted list (rows with
    equal [created_at] keep their relative order). *)
Fixpoint insert_by_created_at (r : UnsendData.t) (l : list UnsendData.t)
  : list UnsendData.t :=
  match l with
  | [] => [r]
  | x :: l' =>
      if UnsendData.CreatedAt r <=? UnsendData.CreatedAt x
      then r :: x :: l'
      else x :: insert_by_created_at r l'
  end.

Definition order_by_created_at (l : list UnsendData.t) : list UnsendData.t :=
  foldr insert_by_created_at [] l.

(** The [WHERE] clause of [FetchPendingRequests]: [status = :1] with
    [:1 = StatusPending]. *)
Definition where_status_pending (r : UnsendData.t) : Prop :=
  UnsendData.Status r = StatusPending.

#[global] Instance where_status_pending_dec (r : UnsendData.t) :
  Decision (where_status_pending r).
Proof. unfold where_status_pending. apply _. Defined.

(** [FetchPendingRequests]: [SELECT ... WHERE status = :1 ORDER BY
    created_at ASC FETCH FIRST :2 ROWS ONLY FOR UPDATE SKIP LOCKED].
    [locked] holds the ids other transactions have locked when the query
    runs. *)
Definition FetchPendingRequests (fail : option FetchFailure)
    (locked : gset Z) (limit : Z) (db : DB) : list UnsendData.t + string :=
  match fail with
  | Some (QueryFailed e) => inr ("failed to fetch pending requests: " +:+ e)
  | Some (ScanFailed e) => inr ("failed to scan request: " +:+ e)
  | Some (RowsFailed e) => inr ("error iterating rows: " +:+ e)
  | None =>
      let rows := (map_to_list (unsend_data db)).*2 in
      let unlocked :=
        filter (λ r, UnsendData.ID r ∉ locked) rows in
      let selected := filter where_status_pending unlocked in
      inl (take (Z.to_nat limit) (order_by_created_at selected))
  end.

(** [UpdateRequestStatus]: [UPDATE ... SET status = :1, updated_at = :2,
    last_error = :3 WHERE id = :4].  [fail] is the driver's error, if any;
    a failed statement changes nothing. *)
Definition UpdateRequestStatus (fail : error) (now : Z) (requestID : Z)
    (status : RequestStatus) (errorMsg : option string) (db : DB)
  : DB * error :=
  match fail with
  | Some e => (db, Some ("failed to update request status: " +:+ e))
  | None =>
      (mkDB (alter (λ r, UnsendData.mk (UnsendData.ID r)
                           (UnsendData.ClientPort r)
                           (UnsendData.BinaryData r)
                           status
                           (UnsendData.CreatedAt r)
                           now
                           (UnsendData.RetryCount r)
                           errorMsg)
                   requestID (unsend_data db))
            (api_responses db),
       None)
  end.

(** [IncrementRetryCount]: [SET retry_count = retry_count + 1,
    updated_at = :1]. *)
Definition IncrementRetryCount (fail : error) (now : Z) (requestID : Z)
    (db : DB) : DB * error :=
  match fail with
  | Some e => (db, Some ("failed to increment retry count: " +:+ e))
  | None =>
      (mkDB (alter (λ r, UnsendData.mk (UnsendData.ID r)
                           (UnsendData.ClientPort r)
                           (UnsendData.BinaryData r)
                           (UnsendData.Status r)
                           (UnsendData.CreatedAt r)
                           now
                           (UnsendData.RetryCount r + 1)
                           (UnsendData.LastError r))
                   requestID (unsend_data db))
            (api_responses db),
       None)
  end.

(** [InsertAPIResponse]: the row's [id] is the table's to give; the record
    is stored as passed. *)
Definition InsertAPIResponse (fail : error) (response : APIResponse.t)
    (db : DB) : DB * error :=
  match fail with
  | Some e => (db, Some ("failed to insert API response: " +:+ e))
  | None => (mkDB (unsend_data db) (api_responses db ++ [response]), None)
  end.

(** [DeleteProcessedRequest]: [fail] is the error of [ExecContext],
    [rows_fail] the error of [RowsAffected]. *)
Definition DeleteProcessedRequest (fail rows_fail : error) (requestID : Z)
    (db : DB) : DB * error :=
  match fail with
  | Some e => (db, Some ("failed to delete processed request: " +:+ e))
  | None =>
      let rows : Z :=
        if unsend_data db !! requestID is Some _ then 1 else 0 in
      let db' := mkDB (delete requestID (unsend_data db)) (api_responses db) in
      match rows_fail with
      | Some e => (db', Some ("failed to get rows affected: " +:+ e))
      | None =>
          if rows =? 0
          then (db', Some ("no request found with id " +:+ pretty requestID))
          else (db', None)
      end
  end.

Definition MarkAsSending (fail : error) (now : Z) (requestID : Z) (db : DB)
  : DB * error :=
  UpdateRequestStatus fail now requestID StatusSending None db.

Definition MarkAsComplete (fail : error) (now : Z) (requestID : Z) (db : DB)
  : DB * error :=
  UpdateRequestStatus fail now requestID StatusComplete None db.

Definition MarkAsFailed (fail : error) (now : Z) (requestID : Z)
    (errorMsg : string) (db : DB) : DB * error :=
  UpdateRequestStatus fail now requestID StatusFailed (Some errorMsg) db.

(** [InsertRequest]: the new row's [id] is the table's to give and comes
    back through [RETURNING id INTO]; [assigned] is that id. *)
Definition InsertRequest (fail : error) (now assigned : Z) (clientPort : Z)
    (binaryData : list byte) (db : DB) : DB * (Z * error) :=
  match fail with
  | Some e => (db, (0, Some ("failed to insert request: " +:+ e)))
  | None =>
      (mkDB (<[assigned := UnsendData.mk assigned clientPort binaryData
                             StatusPending now now 0 None]>
               (unsend_data db))
            (api_responses db),
       (assigned, None))
  end.

(** [GetPendingCount]: [SELECT COUNT( * ) ... WHERE status = :1]. *)
Definition GetPendingCount (fail : error) (db : DB) : Z * error :=
  match fail with
  | Some e => (0, Some ("failed to get pending count: " +:+ e))
  | None =>
      (Z.of_nat
         (length (filter where_status_pending
                    (map_to_list (unsend_data db)).*2)),
       None)
  end.

(** The primary key: every row is stored under its own [id]. *)
Definition keyed_by_id (db : DB) : Prop :=
  ∀ k r, unsend_data db !! k = Some r → UnsendData.ID r = k.



End database.

(** ** internal/server: ConnectionManager *)

Module server.
Import golang models.

(** A [net.Conn]: a socket handle with its remote address. *)
Record Conn := mkConn { fd : Z; RemoteAddr : string }.

(** The two maps of the manager, and the sockets [Close] was called on
    (latest first).  The mutex is not modelled: every method runs to its
    end before the next one starts. *)
Record ConnectionManager := mkConnectionManager {
  connections : gmap Z Conn;
  connInfo : gmap Z ConnectionInfo.t;
  closed : list Conn
}.

Definition NewConnectionManager : ConnectionManager :=
  mkConnectionManager ∅ ∅ [].

Definition Register (now : Z) (port : Z) (conn : Conn)
    (cm : ConnectionManager) : ConnectionManager * error :=
  if connections cm !! port is Some _
  then (cm, Some ("port " +:+ pretty port +:+ " already registered"))
  else
    (mkConnectionManager
       (<[port := conn]> (connections cm))
       (<[port := ConnectionInfo.mk port (RemoteAddr conn) now now 0 0]>
          (connInfo cm))
       (closed cm),
     None).

Definition Unregister (port : Z) (cm : ConnectionManager)
  : ConnectionManager :=
  if connections cm !! port is Some conn
  then mkConnectionManager (delete port (connections cm))
         (delete port (connInfo cm)) (conn :: closed cm)
  else cm.

(** [GetConnection]: Go's [(conn, exists)] is an [option]. *)
Definition GetConnection (port : Z) (cm : ConnectionManager) : option Conn :=
  connections cm !! port.

(** [SendData].  [write] is what [conn.Write(data)] reports for each socket
    and buffer: [None] for success, the error otherwise. *)
Definition SendData (write : Conn → list byte → error) (now : Z)
    (port : Z) (data : list byte) (cm : ConnectionManager)
  : ConnectionManager * error :=
  match GetConnection port cm with
  | None => (cm, Some ("no connection found for port " +:+ pretty port))
  | Some conn =>
      let cm1 :=
        mkConnectionManager (connections cm)
          (alter (λ info, ConnectionInfo.mk (ConnectionInfo.Port info)
                            (ConnectionInfo.RemoteAddr info)
                            (ConnectionInfo.ConnectedAt info)
                            now
                            (int64 (ConnectionInfo.MessagesSent info + 1))
                            (ConnectionInfo.MessagesReceived info))
                 port (connInfo cm))
          (closed cm) in
      match write conn data with
      | Some err =>
          (Unregister port cm1,
           Some ("failed to send data to port " +:+ pretty port +:+ ": "
                   +:+ err))
      | None => (cm1, None)
      end
  end.

Definition Count (cm : ConnectionManager) : Z :=
  Z.of_nat (size (connections cm)).

Definition CloseAll (cm : ConnectionManager) : ConnectionManager :=
  mkConnectionManager ∅ ∅
    ((map_to_list (connections cm)).*2 ++ closed cm).

Definition UpdateLastActive (now : Z) (port : Z) (cm : ConnectionManager)
  : ConnectionManager :=
  mkConnectionManager (connections cm)
    (alter (λ info, ConnectionInfo.mk (ConnectionInfo.Port info)
                      (ConnectionInfo.RemoteAddr info)
                      (ConnectionInfo.ConnectedAt info)
                      now
                      (ConnectionInfo.MessagesSent info)
                      (ConnectionInfo.MessagesReceived info))
           port (connInfo cm))
    (closed cm).

Definition IncrementReceived (now : Z) (port : Z) (cm : ConnectionManager)
  : ConnectionManager :=
  mkConnectionManager (connections cm)
    (alter (λ info, ConnectionInfo.mk (ConnectionInfo.Port info)
                      (ConnectionInfo.RemoteAddr info)
                      (ConnectionInfo.ConnectedAt info)
                      now
                      (ConnectionInfo.MessagesSent info)
                      (int64 (ConnectionInfo.MessagesReceived info + 1)))
           port (connInfo cm))
    (closed cm).

Definition GetConnectionInfo (port : Z) (cm : ConnectionManager)
  : option ConnectionInfo.t :=
  connInfo cm !! port.

(** [GetAllConnections]: the ports, in the order the map is ranged over. *)
Definition GetAllConnections (cm : ConnectionManager) : list Z :=
  (map_to_list (connections cm)).*1.

(** The body of the loop of [CleanupStaleConnections] for one entry of
    [connInfo]. *)
Definition cleanup_entry (now maxIdleTime : Z)
    (entry : Z * ConnectionInfo.t) (cm : ConnectionManager)
  : ConnectionManager :=
  let '(port, info) := entry in
  if time_Sub now (ConnectionInfo.LastActive info) >? maxIdleTime
  then
    if connections cm !! port is Some conn
    then mkConnectionManager (delete port (connections cm))
           (delete port (connInfo cm)) (conn :: closed cm)
    else cm
  else cm.

(** [CleanupStaleConnections]: the loop ranges over the entries [connInfo]
    holds when it starts; the only entry it deletes is the current one. *)
Definition CleanupStaleConnections (now maxIdleTime : Z)
    (cm : ConnectionManager) : ConnectionManager :=
  foldr (cleanup_entry now maxIdleTime) cm (map_to_list (connInfo cm)).

(** The two maps hold the same ports. *)
Definition registry_wf (cm : ConnectionManager) : Prop :=
  dom (connections cm) = dom (connInfo cm).

(** The calls of the manager that change it, for statements about any
    sequence of them. *)
Inductive Call :=
| CallRegister (now port : Z) (conn : Conn)
| CallUnregister (port : Z)
| CallSendData (write : Conn → list byte → error) (now port : Z)
    (data : list byte)
| CallUpdateLastActive (now port : Z)
| CallIncrementReceived (now port : Z)
| CallCloseAll
| CallCleanupStaleConnections (now maxIdleTime : Z).

Definition run_call (c : Call) (cm : ConnectionManager) : ConnectionManager :=
  match c with
  | CallRegister now port conn => (Register now port conn cm).1
  | CallUnregister port => Unregister port cm
  | CallSendData write now port data => (SendData write now port data cm).1
  | CallUpdateLastActive now port => UpdateLastActive now port cm
  | CallIncrementReceived now port => IncrementReceived now port cm
  | CallCloseAll => CloseAll cm
  | CallCleanupStaleConnections now maxIdleTime =>
      CleanupStaleConnections now maxIdleTime cm
  end.

(** The calls run in order, the first of the list first. *)
Definition run_calls (cs : list Call) (cm : ConnectionManager)
  : ConnectionManager :=
  foldl (λ cm c, run_call c cm) cm cs.

End server.

(** ** Library calls of the transformer and the API client *)

Module libs.
Import models.

(** [encoding/json], [encoding/base64] and [time.Format] are not part of
    the repository: the functions the code calls are the fields of this
    class. *)
Class Encoding := {
  json_Unmarshal_map : list byte → option (gmap string json);
  json_Marshal_request : APIRequest.t → list byte + string;
  json_Marshal_payload : APIResponsePayload.t → list byte + string;
  json_Unmarshal_payload : list byte → APIResponsePayload.t + string;
  base64_EncodeToString : list byte → string;
  base64_DecodeString : string → list byte + string;
  Format_RFC3339 : Z → string
}.

End libs.

(** ** internal/transformer *)

Module transformer.
Import golang models libs.

Section with_encoding.
Context `{Encoding}.

Definition parseBinaryData (binaryData : list byte)
  : gmap string json + string :=
  let len := Z.of_nat (length binaryData) in
  if len <? 4
  then inr ("binary data too short: " +:+ pretty len +:+ " bytes")
  else
    let result : gmap string json :=
      <["data_length" := JNumber len]>
        (<["binary_data" := JString (base64_EncodeToString binaryData)]> ∅) in
    match json_Unmarshal_map binaryData with
    | Some jsonData => inl jsonData
    | None =>
        inl (<["format" := JString "binary"]>
               (<["encoding" := JString "base64"]> result))
    end.

Definition BinaryToAPIRequest (now : Z) (requestID clientPort : Z)
    (binaryData : list byte) : APIRequest.t + string :=
  if Z.of_nat (length binaryData) =? 0
  then inr "binary data is empty"
  else
    match parseBinaryData binaryData with
    | inr err => inr ("failed to parse binary data: " +:+ err)
    | inl data =>
        inl (APIRequest.mk (pretty requestID) (Format_RFC3339 now)
               clientPort (Some data))
    end.

Definition encodeToBinary (response : APIResponsePayload.t)
  : list byte + string :=
  let marshal :=
    match json_Marshal_payload response with
    | inr err => inr ("failed to marshal response to JSON: " +:+ err)
    | inl jsonData =>
        let binaryData := make (4 + Z.of_nat (length jsonData)) in
        let binaryData :=
          PutUint32_at 0 (uint32 (Z.of_nat (length jsonData))) binaryData in
        inl (copy_at 4 jsonData binaryData)
    end in
  match APIResponsePayload.Data response with
  | Some data =>
      match data !! "binary_data" with
      | Some (JString binaryStr) =>
          match base64_DecodeString binaryStr with
          | inr err => inr ("failed to decode base64 data: " +:+ err)
          | inl decoded => inl decoded
          end
      | _ => marshal
      end
  | None => marshal
  end.

(** A [*models.APIResponsePayload] that may be [nil] is an [option]. *)
Definition APIResponseToBinary (response : option APIResponsePayload.t)
  : list byte + string :=
  match response with
  | None => inr "API response is nil"
  | Some response =>
      match encodeToBinary response with
      | inr err => inr ("failed to encode to binary: " +:+ err)
      | inl binaryData => inl binaryData
      end
  end.

Definition ValidateBinaryData (binaryData : list byte) : error :=
  let len := Z.of_nat (length binaryData) in
  if len =? 0 then Some "binary data is empty"
  else
    let maxSize := 10 * 1024 * 1024 in
    if len >? maxSize
    then Some ("binary data exceeds maximum size: " +:+ pretty len
                 +:+ " bytes")
    else None.

Definition ValidateAPIResponse (response : option APIResponsePayload.t)
  : error :=
  match response with
  | None => Some "API response is nil"
  | Some response =>
      if String.eqb (APIResponsePayload.RequestID response) EmptyString
      then Some "API response missing request_id"
      else if String.eqb (APIResponsePayload.Status response) EmptyString
      then Some "API response missing status"
      else None
  end.

End with_encoding.

End transformer.

(** ** internal/api: Client *)

Module api.
Import golang models libs config.

(** What one HTTP exchange can come to. *)
Inductive HTTPOutcome :=
| NewRequestFailed (e : string)
| DoFailed (e : string)
| Replied (StatusCode : Z) (body : list byte + string).

(** The upstream as the client sees it: the outcome of the exchange of each
    attempt, and, for the wait before each retry, whether the context ends
    first ([ctx.Err()]) or the timer fires ([None]). *)
Record Upstream := mkUpstream {
  exchange : Z → HTTPOutcome;
  ctx_ends : Z → error
}.

(** What [SendRequest] does that can be observed from outside. *)
Inductive ClientEvent :=
| Wait (d : Z)
| Attempt (attempt : Z).

#[global] Instance ClientEvent_eq_dec : EqDecision ClientEvent.
Proof. solve_decision. Defined.

(** [%w] of an error that may be [nil]. *)
Definition fmt_w (e : error) : string :=
  match e with Some s => s | None => "%!w(<nil>)" end.

(** The retry contract as the specification words it: a first attempt,
    then for each retry [k = 1 .. maxRetries] a wait of [delay × k]
    followed by attempt [k]. *)
Definition linear_backoff (delay maxRetries : Z) : list ClientEvent :=
  Attempt 0
    :: flat_map (λ k, [Wait (delay * k); Attempt k]) (seqZ 1 maxRetries).

(** The text of the error [SendRequest] returns when every attempt failed
    and [lastErr] is the error of the last one. *)
Definition exhausted (cfg : APIConfig) (lastErr : error) : string :=
  "API request failed after " +:+ pretty (MaxRetries cfg + 1)
    +:+ " attempts: " +:+ fmt_w lastErr.

(** The events that are HTTP exchanges. *)
Definition is_attempt (ev : ClientEvent) : bool :=
  match ev with
  | Attempt _ => true
  | Wait _ => false
  end.

Section with_encoding.
Context `{Encoding}.

Definition sendRequestOnce (reply : HTTPOutcome)
  : APIResponsePayload.t + string :=
  match reply with
  | NewRequestFailed e => inr ("failed to create HTTP request: " +:+ e)
  | DoFailed e => inr ("HTTP request failed: " +:+ e)
  | Replied _ (inr e) => inr ("failed to read response body: " +:+ e)
  | Replied StatusCode (inl responseBody) =>
      if (StatusCode <? 200) || (StatusCode >=? 300)
      then inr ("API returned error status " +:+ pretty StatusCode +:+ ": "
                  +:+ string_of_list_byte responseBody)
      else
        match json_Unmarshal_payload responseBody with
        | inr e => inr ("failed to unmarshal response: " +:+ e)
        | inl apiResponse => inl apiResponse
        end
  end.

(** The body of [for attempt := 0; attempt <= MaxRetries; attempt++]:
    [n] is the number of iterations still to run, so the loop is entered
    with [n = MaxRetries + 1] and [attempt = 0], and the loop test holds
    exactly as long as [n] is not [0].  The delay is a [time.Duration]
    product and wraps as [int64] does. *)
Fixpoint retry_loop (cfg : APIConfig) (up : Upstream) (n : nat)
    (attempt : Z) (lastErr : error)
  : list ClientEvent * (APIResponsePayload.t + string) :=
  match n with
  | O =>
      ([], inr ("API request failed after " +:+ pretty (MaxRetries cfg + 1)
                  +:+ " attempts: " +:+ fmt_w lastErr))
  | S n' =>
      let delay := int64 (RetryDelay cfg * attempt) in
      let waited := if attempt >? 0 then [Wait delay] else [] in
      match (if attempt >? 0 then ctx_ends up attempt else None) with
      | Some e => (waited, inr e)
      | None =>
          match sendRequestOnce (exchange up attempt) with
          | inl response => (waited ++ [Attempt attempt], inl response)
          | inr e =>
              let '(evs, r) := retry_loop cfg up n' (attempt + 1) (Some e) in
              (waited ++ Attempt attempt :: evs, r)
          end
      end
  end.

Definition SendRequest (cfg : APIConfig) (up : Upstream)
    (request : APIRequest.t)
  : list ClientEvent * (APIResponsePayload.t + string) :=
  match json_Marshal_request request with
  | inr e => ([], inr ("failed to marshal request: " +:+ e))
  | inl requestBody =>
      retry_loop cfg up (Z.to_nat (MaxRetries cfg + 1)) 0 None
  end.

(** The error of attempt [k] when it fails, and that it fails. *)
Definition attempt_error (up : Upstream) (k : Z) : string :=
  match sendRequestOnce (exchange up k) with
  | inr e => e
  | inl _ => EmptyString
  end.

Definition attempt_fails (up : Upstream) (k : Z) : Prop :=
  ∃ e, sendRequestOnce (exchange up k) = inr e.

End with_encoding.

End api.

(** ** internal/worker: Processor *)

Module worker.
Import golang models libs config database server api.

(** The places where [Process] calls out of the package. *)
Inductive Site :=
| AtMarkAsSending
| AtBinaryToAPIRequest
| AtInsertAPIResponse
| AtSendData
| AtMarkAsComplete
| AtDeleteProcessedRequest
| AtMarkAsFailed
| AtIncrementRetryCount.

#[global] Instance Site_eq_dec : EqDecision Site.
Proof. solve_decision. Defined.

(** What the outside does during one run of [Process]: the database
    driver's error at each repository call, the error of [RowsAffected],
    the clock read at each site, the upstream, and the sockets' writes. *)
Record Env := mkEnv {
  driver : Site → error;
  rows_affected : error;
  time_Now : Site → Z;
  upstream : Upstream;
  conn_Write : Conn → list byte → error
}.

(** The repository calls and client events of a run, in order. *)
Inductive Event :=
| RepoCall (s : Site)
| Client (e : ClientEvent).

#[global] Instance Event_eq_dec : EqDecision Event.
Proof. solve_decision. Defined.

(** What the processor's collaborators hold: the database behind [repo],
    the registry behind [connMgr], and the record of calls made. *)
Record World := mkWorld {
  db : DB;
  connMgr : ConnectionManager;
  log : list Event
}.

Section with_encoding.
Context `{Encoding}.

Definition handleError (env : Env) (requestID : Z) (err : string)
    (w : World) : World :=
  let errorMsg := err in
  let '(db1, _) :=
    MarkAsFailed (driver env AtMarkAsFailed) (time_Now env AtMarkAsFailed)
      requestID errorMsg (db w) in
  let '(db2, _) :=
    IncrementRetryCount (driver env AtIncrementRetryCount)
      (time_Now env AtIncrementRetryCount) requestID db1 in
  mkWorld db2 (connMgr w)
    (log w ++ [RepoCall AtMarkAsFailed; RepoCall AtIncrementRetryCount]).

Definition sendToClient (env : Env) (clientPort : Z) (data : list byte)
    (cm : ConnectionManager) : ConnectionManager * error :=
  match protocol.EncodeMessage protocol.MessageTypeResponse data with
  | inr err => (cm, Some ("failed to encode message: " +:+ err))
  | inl message =>
      match SendData (conn_Write env) (time_Now env AtSendData)
              clientPort message cm with
      | (cm', Some err) =>
          (cm', Some ("connection manager send failed: " +:+ err))
      | (cm', None) => (cm', None)
      end
  end.

(** [result.Error = fmt.Errorf(...); p.handleError(...); return result]. *)
Definition abort (env : Env) (request : UnsendData.t)
    (result : ProcessingResult.t) (err : string) (w : World)
  : World * ProcessingResult.t :=
  (handleError env (UnsendData.ID request) err w,
   ProcessingResult.mk (ProcessingResult.RequestID result)
     (ProcessingResult.ClientPort result)
     (ProcessingResult.Success result)
     (ProcessingResult.Response result)
     (Some err)
     (ProcessingResult.ProcessedAt result)).

Definition Process (cfg : APIConfig) (env : Env) (request : UnsendData.t)
    (w : World) : World * ProcessingResult.t :=
  let result :=
    ProcessingResult.mk (UnsendData.ID request)
      (UnsendData.ClientPort request) false [] None 0 in
  (* Step 1: mark as sending *)
  let '(db1, err1) :=
    MarkAsSending (driver env AtMarkAsSending) (time_Now env AtMarkAsSending)
      (UnsendData.ID request) (db w) in
  let w := mkWorld db1 (connMgr w) (log w ++ [RepoCall AtMarkAsSending]) in
  match err1 with
  | Some err => abort env request result ("failed to mark as sending: " +:+ err) w
  | None =>
  (* Step 2: validate binary data *)
  match transformer.ValidateBinaryData (UnsendData.BinaryData request) with
  | Some err => abort env request result ("invalid binary data: " +:+ err) w
  | None =>
  (* Step 3: convert binary to API request *)
  match transformer.BinaryToAPIRequest (time_Now env AtBinaryToAPIRequest)
          (UnsendData.ID request) (UnsendData.ClientPort request)
          (UnsendData.BinaryData request) with
  | inr err =>
      abort env request result ("failed to convert to API request: " +:+ err) w
  | inl apiRequest =>
  (* Step 4: send API request *)
  let '(events, sent) := SendRequest cfg (upstream env) apiRequest in
  let w := mkWorld (db w) (connMgr w) (log w ++ map Client events) in
  match sent with
  | inr err => abort env request result ("API request failed: " +:+ err) w
  | inl apiResponse =>
  (* Step 5: validate API response *)
  match transformer.ValidateAPIResponse (Some apiResponse) with
  | Some err => abort env request result ("invalid API response: " +:+ err) w
  | None =>
  (* Step 6: store API response in database *)
  let dbResponse :=
    APIResponse.mk 0 (UnsendData.ID request)
      (APIResponsePayload.StatusCode apiResponse)
      (list_byte_of_string (APIResponsePayload.Message apiResponse))
      (time_Now env AtInsertAPIResponse) in
  let '(db6, _) :=
    InsertAPIResponse (driver env AtInsertAPIResponse) dbResponse (db w) in
  let w := mkWorld db6 (connMgr w) (log w ++ [RepoCall AtInsertAPIResponse]) in
  (* Step 7: convert API response to binary *)
  match transformer.APIResponseToBinary (Some apiResponse) with
  | inr err =>
      abort env request result
        ("failed to convert response to binary: " +:+ err) w
  | inl binaryResponse =>
  let result :=
    ProcessingResult.mk (ProcessingResult.RequestID result)
      (ProcessingResult.ClientPort result) (ProcessingResult.Success result)
      binaryResponse (ProcessingResult.Error result)
      (ProcessingResult.ProcessedAt result) in
  (* Step 8: send response to client via TCP *)
  let '(cm8, err8) :=
    sendToClient env (UnsendData.ClientPort request) binaryResponse
      (connMgr w) in
  let w := mkWorld (db w) cm8 (log w) in
  match err8 with
  | Some err =>
      abort env request result
        ("failed to send response to client: " +:+ err) w
  | None =>
  (* Step 9: mark as complete *)
  let '(db9, _) :=
    MarkAsComplete (driver env AtMarkAsComplete)
      (time_Now env AtMarkAsComplete) (UnsendData.ID request) (db w) in
  let w := mkWorld db9 (connMgr w) (log w ++ [RepoCall AtMarkAsComplete]) in
  (* Step 10: delete processed record *)
  let '(db10, _) :=
    DeleteProcessedRequest (driver env AtDeleteProcessedRequest)
      (rows_affected env) (UnsendData.ID request) (db w) in
  let w :=
    mkWorld db10 (connMgr w) (log w ++ [RepoCall AtDeleteProcessedRequest]) in
  (w,
   ProcessingResult.mk (ProcessingResult.RequestID result)
     (ProcessingResult.ClientPort result) true
     (ProcessingResult.Response result) (ProcessingResult.Error result)
     (ProcessingResult.ProcessedAt result))
  end end end end end end end.

(** [ProcessBatch]: the requests are processed one after the other on the
    same collaborators; [envs i] is what the outside does during the run
    of the request at index [first + i]. *)
Fixpoint ProcessBatch_from (cfg : APIConfig) (envs : nat → Env) (first : nat)
    (requests : list UnsendData.t) (w : World)
  : World * list ProcessingResult.t :=
  match requests with
  | [] => (w, [])
  | req :: requests' =>
      let '(w1, result) := Process cfg (envs first) req w in
      let '(w2, results) :=
        ProcessBatch_from cfg envs (S first) requests' w1 in
      (w2, result :: results)
  end.

Definition ProcessBatch (cfg : APIConfig) (envs : nat → Env)
    (requests : list UnsendData.t) (w : World)
  : World * list ProcessingResult.t :=
  ProcessBatch_from cfg envs 0 requests w.

End with_encoding.

(** *** What the properties of [Process] speak of *)

(** The row of a job in the staging table. *)
Definition row_of (requestID : Z) (w : World) : option UnsendData.t :=
  unsend_data (db w) !! requestID.

(** The row [r] once the failure handler has run at time [now] with the
    error [msg]. *)
Definition failed_row (r : UnsendData.t) (now : Z) (msg : string)
  : UnsendData.t :=
  UnsendData.mk (UnsendData.ID r) (UnsendData.ClientPort r)
    (UnsendData.BinaryData r) StatusFailed (UnsendData.CreatedAt r) now
    (UnsendData.RetryCount r + 1) (Some msg).

(** The row [r] once [MarkAsSending] or [MarkAsComplete] has run. *)
Definition marked_row (r : UnsendData.t) (status : RequestStatus) (now : Z)
  : UnsendData.t :=
  UnsendData.mk (UnsendData.ID r) (UnsendData.ClientPort r)
    (UnsendData.BinaryData r) status (UnsendData.CreatedAt r) now
    (UnsendData.RetryCount r) None.

(** How often a repository method was called. *)
Definition calls_of (s : Site) (l : list Event) : nat :=
  length (filter (λ e, e = RepoCall s) l).


(** What a run on [request] may change between [w] and [w']: the row of the
    request, the response table by the records [added] at its end, and the
    registry entry of the request's client port. *)
Definition touches (request : UnsendData.t) (w w' : World)
    (added : list APIResponse.t) : Prop :=
  (∀ id, id ≠ UnsendData.ID request → row_of id w' = row_of id w)
  ∧ api_responses (db w') = api_responses (db w) ++ added
  ∧ (∀ port, port ≠ UnsendData.ClientPort request →
       GetConnection port (connMgr w') = GetConnection port (connMgr w)
       ∧ GetConnectionInfo port (connMgr w')
         = GetConnectionInfo port (connMgr w)).

(** *** pool.go *)

(** How a call ends: it returns a value, or the goroutine panics. *)
Inductive Outcome (A : Type) :=
| Returns (a : A)
| Panics (msg : string).
Arguments Returns {A} a.
Arguments Panics {A} msg.

(** A channel as the runtime keeps it: its capacity, the buffered elements
    (oldest first), whether [close] was called, and the number of
    goroutines parked in a receive on it. *)
Record chan (A : Type) := mkChan {
  cap : Z;
  buf : list A;
  is_closed : bool;
  receivers : nat
}.
Arguments mkChan {A} cap buf is_closed receivers.
Arguments cap {A} c.
Arguments buf {A} c.
Arguments is_closed {A} c.
Arguments receivers {A} c.

(** A goroutine parks in a receive only when nothing is buffered, and the
    buffer never exceeds the capacity. *)
Definition chan_wf {A} (c : chan A) : Prop :=
  0 ≤ cap c ∧ Z.of_nat (length (buf c)) ≤ cap c
  ∧ ((0 < receivers c)%nat → buf c = []).

(** [make(chan T, size)]. *)
Definition make_chan {A} (size : Z) : Outcome (chan A) :=
  if size <? 0 then Panics "makechan: size out of range"
  else Returns (mkChan size [] false 0).

(** Whether the send [c <- x] of a [select] case can proceed: on a closed
    channel it can (and panics), otherwise it needs a parked receiver or
    room in the buffer. *)
Definition can_send {A} (c : chan A) : bool :=
  is_closed c || (0 <? receivers c)%nat
  || (Z.of_nat (length (buf c)) <? cap c).

(** The send itself, once it proceeds; the second component is the element
    when it went to a parked receiver instead of the buffer. *)
Definition send {A} (x : A) (c : chan A) : Outcome (chan A * option A) :=
  if is_closed c then Panics "send on closed channel"
  else if (0 <? receivers c)%nat
  then Returns (mkChan (cap c) (buf c) false (receivers c - 1), Some x)
  else Returns (mkChan (cap c) (buf c ++ [x]) false (receivers c), None).

(** [close(c)]: parked receivers are woken. *)
Definition close {A} (c : chan A) : Outcome (chan A) :=
  if is_closed c then Panics "close of closed channel"
  else Returns (mkChan (cap c) (buf c) true 0).

Record Pool := mkPool {
  pool_config : WorkerConfig;
  jobs : chan ProcessingJob.t;
  results : chan ProcessingResult.t;
  ctx_done : bool;
  (** goroutines counted by [wg] *)
  running : nat;
  (** jobs workers have received *)
  taken : list ProcessingJob.t
}.

Definition pool_wf (p : Pool) : Prop :=
  chan_wf (jobs p) ∧ cap (jobs p) = QueueSize (pool_config p).

Definition ErrQueueFull : string := "job queue is full".
Definition context_Canceled : string := "context canceled".

Definition NewPool (cfg : WorkerConfig) : Outcome Pool :=
  match make_chan (QueueSize cfg), make_chan (QueueSize cfg) with
  | Returns j, Returns r => Returns (mkPool cfg j r false 0 [])
  | Panics msg, _ => Panics msg
  | _, Panics msg => Panics msg
  end.

(** [Start]: [PoolSize] workers and the result handler. *)
Definition Start (p : Pool) : Pool :=
  mkPool (pool_config p) (jobs p) (results p) (ctx_done p)
    (running p + Z.to_nat (PoolSize (pool_config p)) + 1)%nat (taken p).

(** A worker that finds nothing to do in its [select] parks. *)
Definition worker_parks (p : Pool) : Pool :=
  if ctx_done p || is_closed (jobs p) || negb (bool_decide (buf (jobs p) = []))
  then p
  else mkPool (pool_config p)
         (mkChan (cap (jobs p)) (buf (jobs p)) (is_closed (jobs p))
            (S (receivers (jobs p))))
         (results p) (ctx_done p) (running p) (taken p).

(** [Submit].  When both the send and [<-p.ctx.Done()] can proceed, the
    runtime picks one of them at random: [pick_send] is its choice.  The
    [default] case runs only when neither can. *)
Definition Submit (pick_send : bool) (job : ProcessingJob.t) (p : Pool)
  : Pool * Outcome error :=
  let send_ready := can_send (jobs p) in
  let done_ready := ctx_done p in
  if send_ready && (negb done_ready || pick_send)
  then
    match send job (jobs p) with
    | Panics msg => (p, Panics msg)
    | Returns (c, handed) =>
        (mkPool (pool_config p) c (results p) (ctx_done p) (running p)
           (taken p ++ (if handed is Some j then [j] else [])),
         Returns None)
    end
  else if done_ready
  then (p, Returns (Some context_Canceled))
  else (p, Returns (Some ErrQueueFull)).

(** [Stop]: cancel, close the job channel, wait for the goroutines, close
    the result channel.  While [wg.Wait()] blocks, each worker leaves at
    its next [select]; [drained] is the number of buffered jobs the workers
    still receive before they do. *)
Definition Stop (drained : nat) (p : Pool) : Outcome Pool :=
  match close (jobs p) with
  | Panics msg => Panics msg
  | Returns j =>
      let j' := mkChan (cap j) (drop drained (buf j)) (is_closed j)
                  (receivers j) in
      match close (results p) with
      | Panics msg => Panics msg
      | Returns r =>
          Returns (mkPool (pool_config p) j' r true 0
                     (taken p ++ take drained (buf j)))
      end
  end.

End worker.

(** ** Scenario data

    The rows, sockets, pools and environments of the end-to-end scenarios,
    on which the properties below are run. *)

Module scenario.
Import golang models libs config database server api worker.

(** Row 42 of the happy path, as staged. *)
Definition row_42 : UnsendData.t :=
  UnsendData.mk 42 54321 [xde; xad; xbe; xef] StatusPending 1000 1000 0 None.

(** Row 42 after a failed attempt: it carries an error text. *)
Definition failed_row_42 : UnsendData.t :=
  UnsendData.mk 42 54321 [xde; xad; xbe; xef] StatusFailed 1000 2000 1
    (Some "API request failed: timeout").

(** A pending row whose retry count is [MaxRetries] of [Default()]. *)
Definition row_at_ceiling : UnsendData.t :=
  UnsendData.mk 7 9999 [xde; xad; xbe; xef] StatusPending 1000 2000
    (MaxRetries Default_API) None.

(** The client on source port 54321, and a registry holding it. *)
Definition client_54321 : Conn := mkConn 5 "10.0.0.7:54321".

Definition one_client : ConnectionManager :=
  (Register 1000 54321 client_54321 NewConnectionManager).1.

(** Two jobs for the pool. *)
Definition job_42 : ProcessingJob.t := ProcessingJob.mk row_42 0 1100.

Definition job_43 : ProcessingJob.t :=
  ProcessingJob.mk
    (UnsendData.mk 43 54321 [x01; x02; x03; x04] StatusPending 1001 1001 0 None)
    0 1101.


(** The upstream's reply of the happy path. *)
Definition reply_42 : APIResponsePayload.t :=
  APIResponsePayload.mk "42" "ok" 200 "hello" None "2026-01-01T00:00:00Z".

(** The library calls, answering as the real ones do on the scenarios'
    inputs: the staged payload is not JSON, the reply body parses to
    [reply_42], and marshalling gives some bytes. *)
Definition scenario_encoding : Encoding :=
  Build_Encoding
    (λ _, None)
    (λ _, inl [x7b; x7d])
    (λ _, inl [x7b; x7d])
    (λ _, inl reply_42)
    (λ _, "3q2+7w==")
    (λ _, inl [xde; xad; xbe; xef])
    (λ _, "2026-01-01T00:00:00Z").

(** Row 42 staged, its client connected. *)
Definition world_42 : World :=
  mkWorld (mkDB {[42 := row_42]} []) one_client [].

(** An upstream that answers 200, and one that answers 503, to every
    attempt; the job's context outlives every wait. *)
Definition upstream_ok : Upstream :=
  mkUpstream (λ _, Replied 200 (inl [x7b; x7d])) (λ _, None).

Definition upstream_503 : Upstream :=
  mkUpstream (λ _, Replied 503 (inl [])) (λ _, None).

(** The upstream answers, the client is written to, and the database
    rejects the three writes that follow the upstream call. *)
Definition env_cleanup_fails : Env :=
  mkEnv
    (λ s, match s with
          | AtInsertAPIResponse | AtMarkAsComplete | AtDeleteProcessedRequest =>
              Some "ORA-03113: end-of-file on communication channel"
          | _ => None
          end)
    None (λ _, 5000) upstream_ok (λ _ _, None).

(** The upstream answers 503 to every attempt; everything else works. *)
Definition env_outage : Env :=
  mkEnv (λ _, None) None (λ _, 5000) upstream_503 (λ _ _, None).

End scenario.

(** ** Further examples

    Inputs on which the further properties are run. *)

Module examples.
Import golang models libs config database server api worker scenario.

(** A pong frame, and the message it carries. *)
Definition pong_frame : list byte :=
  [x01; x05; x00; x00; x00; x00; x00; x00].

Definition pong_message : protocol.Message :=
  protocol.mkMessage x01 protocol.MessageTypePong 0 [].

(** A table with row 42 pending and row 7 failed. *)
Definition two_rows : DB :=
  mkDB (<[7 := UnsendData.mk 7 9999 [x01; x02; x03; x04] StatusFailed 900 950
                 1 (Some "invalid binary data: binary data is empty")]>
          {[42 := row_42]})
       [].

(** An upstream that answers 503 twice and 200 from the third attempt
    on, and one that never answers while the job's deadline passes during
    the wait before the second retry. *)
Definition upstream_recovers : Upstream :=
  mkUpstream
    (λ attempt, if attempt <? 2 then Replied 503 (inl [])
                else Replied 200 (inl [x7b; x7d]))
    (λ _, None).

Definition upstream_deadline : Upstream :=
  mkUpstream
    (λ _, DoFailed "dial tcp: i/o timeout")
    (λ attempt, if attempt =? 2 then Some "context deadline exceeded"
                else None).

(** Everything works: the database accepts every write, the upstream
    answers 200 and the sockets take what is written. *)
Definition env_ok : Env :=
  mkEnv (λ _, None) None (λ _, 5000) upstream_ok (λ _ _, None).

(** Row 42 staged while its client has gone: the registry is empty. *)
Definition world_client_gone : World :=
  mkWorld (mkDB {[42 := row_42]} []) NewConnectionManager [].

(** A staged row whose payload has three bytes, and the table holding it. *)
Definition row_short : UnsendData.t :=
  UnsendData.mk 44 54321 [x01; x02; x03] StatusPending 1002 1002 0 None.

Definition world_short : World :=
  mkWorld (mkDB {[44 := row_short]} []) one_client [].

(** A started pool with a queue of two, holding [job_42]; and the same pool
    with an empty queue and a worker parked in its receive. *)
Definition pool_with_room : Pool :=
  mkPool (mkWorkerConfig 2 2 60000000000)
    (mkChan 2 [job_42] false 0) (mkChan 2 [] false 0) false 3 [].

Definition pool_with_parked_worker : Pool :=
  mkPool (mkWorkerConfig 2 2 60000000000)
    (mkChan 2 [] false 1) (mkChan 2 [] false 0) false 3 [].

End examples.

(** * Properties *)

(** ** Bytes and big-endian words *)

Section bytes.
Import golang.

Lemma Z_of_byte_range (b : byte) : 0 ≤ Z_of_byte b < 256.
Proof.
  unfold Z_of_byte. pose proof (Byte.to_N_bounded b). lia.
Qed.

Lemma land_255 (v : Z) : Z.land v 255 = v mod 256.
Proof. change 255 with (Z.ones 8). rewrite Z.land_ones by lia. reflexivity. Qed.

Lemma Z_of_byte_of_Z (v : Z) : Z_of_byte (byte_of_Z v) = v mod 256.
Proof.
  unfold Z_of_byte, byte_of_Z. rewrite land_255.
  assert (Hr : 0 ≤ v mod 256 < 256) by (apply Z.mod_pos_bound; lia).
  destruct (Byte.of_N (Z.to_N (v mod 256))) as [b|] eqn:E.
  - apply Byte.to_of_N in E. rewrite E. lia.
  - apply Byte.of_N_None_iff in E. lia.
Qed.

Lemma byte_of_Z_of_byte (b : byte) : byte_of_Z (Z_of_byte b) = b.
Proof.
  unfold byte_of_Z. rewrite land_255.
  rewrite Z.mod_small by apply Z_of_byte_range.
  unfold Z_of_byte. rewrite N2Z.id, Byte.of_to_N. reflexivity.
Qed.

(** Reading back the four bytes [PutUint32] writes gives the word. *)
Lemma Uint32_PutUint32 (v : Z) :
  0 ≤ v < 2 ^ 32 →
  Uint32 (byte_of_Z (Z.shiftr v 24)) (byte_of_Z (Z.shiftr v 16))
         (byte_of_Z (Z.shiftr v 8)) (byte_of_Z v) = v.
Proof.
  intros Hv. unfold Uint32. rewrite !Z_of_byte_of_Z.
  change 256 with (2 ^ 8).
  apply Z.bits_inj'. intros n Hn.
  rewrite !Z.lor_spec, !Z.shiftl_spec by lia.
  rewrite !Z.testbit_mod_pow2 by lia.
  assert (Hhigh : 32 ≤ n → Z.testbit v n = false).
  { intros Hge. apply Z.bits_above_log2; [lia|].
    destruct (Z.eq_dec v 0) as [->|]; [simpl; lia|].
    assert (Z.log2 v < 32) by (apply Z.log2_lt_pow2; lia). lia. }
  destruct (Z.ltb_spec n 8), (Z.ltb_spec (n - 8) 8),
    (Z.ltb_spec (n - 16) 8), (Z.ltb_spec (n - 24) 8); try lia; simpl;
    repeat match goal with
    | |- context [Z.testbit (Z.shiftr ?a ?k) ?m] =>
        first [ rewrite (Z.shiftr_spec a k m) by lia
              | rewrite (Z.testbit_neg_r (Z.shiftr a k) m) by lia ]
    end;
    rewrite ?Z.sub_add, ?Bool.orb_false_r; try reflexivity.
  symmetry. apply Hhigh. lia.
Qed.

Lemma Uint32_range (b0 b1 b2 b3 : byte) : 0 ≤ Uint32 b0 b1 b2 b3 < 2 ^ 32.
Proof.
  unfold Uint32.
  pose proof (Z_of_byte_range b0). pose proof (Z_of_byte_range b1).
  pose proof (Z_of_byte_range b2). pose proof (Z_of_byte_range b3).
  split.
  - repeat (apply Z.lor_nonneg; split); try apply Z.shiftl_nonneg; lia.
  - destruct (Z.eq_dec (Uint32 b0 b1 b2 b3) 0) as [E|E];
      unfold Uint32 in E; [rewrite E; lia|].
    apply Z.log2_lt_pow2.
    + assert (0 ≤ Z.lor (Z.lor (Z.lor (Z_of_byte b3) (Z.shiftl (Z_of_byte b2) 8))
                (Z.shiftl (Z_of_byte b1) 16)) (Z.shiftl (Z_of_byte b0) 24)).
      { repeat (apply Z.lor_nonneg; split); try apply Z.shiftl_nonneg; lia. }
      lia.
    + assert (Hlog : ∀ x k, 0 ≤ x < 256 → 0 ≤ k ≤ 24 →
                Z.log2 (Z.shiftl x k) < 32).
      { intros x k Hx Hk. destruct (Z.eq_dec x 0) as [->|].
        - rewrite Z.shiftl_0_l. simpl. lia.
        - rewrite Z.log2_shiftl by lia.
          assert (Z.log2 x < 8) by (apply Z.log2_lt_pow2; lia). lia. }
      pose proof (Hlog _ 0 (Z_of_byte_range b3) ltac:(lia)) as H3.
      rewrite Z.shiftl_0_r in H3.
      pose proof (Hlog _ 8 (Z_of_byte_range b2) ltac:(lia)).
      pose proof (Hlog _ 16 (Z_of_byte_range b1) ltac:(lia)).
      pose proof (Hlog _ 24 (Z_of_byte_range b0) ltac:(lia)).
      rewrite !Z.log2_lor;
        repeat (try apply Z.lor_nonneg; try split; try apply Z.shiftl_nonneg);
        lia.
Qed.

(** [ReadFull] of a prefix that is there. *)
Lemma ReadFull_app (a b : list byte) (e : string) :
  ReadFull (length a) (mkReader (a ++ b) e) = (mkReader b e, inl a).
Proof.
  unfold ReadFull. simpl.
  rewrite length_app.
  destruct (Nat.leb_spec (length a) (length a + length b)); [|lia].
  rewrite drop_app_length, take_app_length. reflexivity.
Qed.

End bytes.

(** ** The wire codec *)

Section codec.
Import golang protocol.

Lemma MaxMessageSize_lt_2_32 : MaxMessageSize < 2 ^ 32.
Proof. reflexivity. Qed.

Lemma EncodeMessage_frame (msgType : MessageType) (data : list byte) :
  Z.of_nat (length data) ≤ MaxMessageSize →
  EncodeMessage msgType data = inl (frame_layout msgType data).
Proof.
  intros Hlen. pose proof MaxMessageSize_lt_2_32 as Hmax.
  unfold EncodeMessage, frame_layout.
  destruct (Z.gtb_spec (Z.of_nat (length data)) MaxMessageSize) as [|_]; [lia|].
  f_equal. unfold uint32. rewrite Z.mod_small by lia.
  unfold make, HeaderSize, PutUint32_at.
  replace (Z.to_nat (8 + Z.of_nat (length data)))
    with (8 + length data)%nat by lia.
  change (Z.to_nat 8) with 8%nat.
  change (replicate (8 + length data) x00)
    with (x00 :: x00 :: x00 :: x00 :: x00 :: x00 :: x00 :: x00
            :: replicate (length data) x00).
  cbn [list_insert insert Nat.add].
  destruct (Z.gtb_spec (Z.of_nat (length data)) 0) as [E|E].
  - unfold copy_at. cbn [take drop length Nat.add Nat.sub app].
    rewrite length_replicate, Nat.sub_0_r, firstn_all.
    rewrite drop_ge by (rewrite length_replicate; lia).
    rewrite app_nil_r. reflexivity.
  - destruct data; [reflexivity|]. cbn [length] in E. lia.
Qed.

(** [DecodeMessage] on a stream that starts with eight header bytes. *)
Lemma DecodeMessage_header (v t l0 l1 l2 l3 r0 r1 : byte)
    (body : list byte) (e : string) :
  DecodeMessage (mkReader (v :: t :: l0 :: l1 :: l2 :: l3 :: r0 :: r1 :: body) e)
  = let len := Uint32 l0 l1 l2 l3 in
    if negb (Byte.eqb v ProtocolVersion)
    then mkDecoded (mkReader body e) [HeaderSize]
           (inr ("unsupported protocol version: " +:+ pretty (Z_of_byte v)))
    else if len >? MaxMessageSize
    then mkDecoded (mkReader body e) [HeaderSize]
           (inr ("message size " +:+ pretty len +:+ " exceeds maximum "
                   +:+ pretty MaxMessageSize))
    else if len >? 0
    then
      match ReadFull (Z.to_nat len) (mkReader body e) with
      | (r2, inr err) =>
          mkDecoded r2 [HeaderSize; len]
            (inr ("failed to read message data: " +:+ err))
      | (r2, inl data) =>
          mkDecoded r2 [HeaderSize; len] (inl (mkMessage v t len data))
      end
    else mkDecoded (mkReader body e) [HeaderSize] (inl (mkMessage v t len [])).
Proof.
  unfold DecodeMessage.
  change (Z.to_nat HeaderSize) with (length [v; t; l0; l1; l2; l3; r0; r1]).
  change (v :: t :: l0 :: l1 :: l2 :: l3 :: r0 :: r1 :: body)
    with ([v; t; l0; l1; l2; l3; r0; r1] ++ body).
  rewrite (ReadFull_app [v; t; l0; l1; l2; l3; r0; r1] body e).
  reflexivity.
Qed.

(** C6.  Frame round trip: for every message type and every payload of at
    most [MaxMessageSize] bytes, [EncodeMessage] succeeds, and
    [DecodeMessage] reading the encoded bytes (whatever follows them on the
    stream) returns a message with that type and that payload, and leaves
    the reader just after the frame. *)
Theorem frame_round_trip (msgType : MessageType) (p more : list byte)
    (e : string) :
  Z.of_nat (length p) ≤ MaxMessageSize →
  ∃ encoded,
    EncodeMessage msgType p = inl encoded
    ∧ outcome (DecodeMessage (mkReader (encoded ++ more) e))
      = inl (mkMessage ProtocolVersion msgType (Z.of_nat (length p)) p)
    ∧ rest (DecodeMessage (mkReader (encoded ++ more) e)) = mkReader more e.
Proof.
  intros Hlen. pose proof MaxMessageSize_lt_2_32 as Hmax.
  exists (frame_layout msgType p). split; [by apply EncodeMessage_frame|].
  unfold frame_layout. cbn [app].
  rewrite DecodeMessage_header. cbv zeta.
  rewrite Uint32_PutUint32 by lia.
  change (negb (Byte.eqb ProtocolVersion ProtocolVersion)) with false.
  cbv iota.
  destruct (Z.gtb_spec (Z.of_nat (length p)) MaxMessageSize) as [|_]; [lia|].
  destruct (Z.gtb_spec (Z.of_nat (length p)) 0) as [Hpos|Hzero].
  - rewrite Nat2Z.id, ReadFull_app. split; reflexivity.
  - destruct p; [split; reflexivity|]. cbn [length] in Hzero. lia.
Qed.

(** The round trip run on the payload [DE AD BE EF] of a response frame. *)
Lemma frame_round_trip_witness :
  Z.of_nat (length [xde; xad; xbe; xef]) ≤ MaxMessageSize
  ∧ ∃ encoded,
      EncodeMessage MessageTypeResponse [xde; xad; xbe; xef] = inl encoded
      ∧ outcome (DecodeMessage (mkReader (encoded ++ []) EOF))
        = inl (mkMessage ProtocolVersion MessageTypeResponse
                 (Z.of_nat (length [xde; xad; xbe; xef]))
                 [xde; xad; xbe; xef])
      ∧ rest (DecodeMessage (mkReader (encoded ++ []) EOF)) = mkReader [] EOF.
Proof.
  split.
  - vm_compute. discriminate.
  - apply (frame_round_trip MessageTypeResponse [xde; xad; xbe; xef] [] EOF).
    vm_compute. discriminate.
Defined.

(** C7.  The reader contract of [DecodeMessage].  A stream that ends
    before eight bytes fails in the header read, everything consumed.  On a
    stream with eight header bytes, exactly those are read, then: a version
    byte other than 1 fails as unsupported; a length field above
    [MaxMessageSize] fails as oversize; in both cases the reader stands just
    after the header and only the header buffer was allocated.  Otherwise
    exactly [length] payload bytes are read and returned, or the read fails
    when the stream holds fewer.  Whatever the version byte, a length field
    above [MaxMessageSize] ends in an error with no payload buffer
    allocated. *)
Theorem DecodeMessage_reader_contract (r : Reader) :
  ((length (pending r) < 8)%nat →
     ∃ err, outcome (DecodeMessage r) = inr ("failed to read header: " +:+ err)
            ∧ pending (rest (DecodeMessage r)) = []
            ∧ allocs (DecodeMessage r) = [HeaderSize])
  ∧ (∀ v t l0 l1 l2 l3 r0 r1 body,
       pending r = v :: t :: l0 :: l1 :: l2 :: l3 :: r0 :: r1 :: body →
       let len := Uint32 l0 l1 l2 l3 in
       (v ≠ ProtocolVersion →
          outcome (DecodeMessage r)
          = inr ("unsupported protocol version: " +:+ pretty (Z_of_byte v))
          ∧ rest (DecodeMessage r) = mkReader body (at_end r)
          ∧ allocs (DecodeMessage r) = [HeaderSize])
       ∧ (v = ProtocolVersion → len > MaxMessageSize →
          outcome (DecodeMessage r)
          = inr ("message size " +:+ pretty len +:+ " exceeds maximum "
                   +:+ pretty MaxMessageSize)
          ∧ rest (DecodeMessage r) = mkReader body (at_end r)
          ∧ allocs (DecodeMessage r) = [HeaderSize])
       ∧ (v = ProtocolVersion → len ≤ MaxMessageSize →
          (Z.to_nat len ≤ length body)%nat →
          outcome (DecodeMessage r)
          = inl (mkMessage v t len (take (Z.to_nat len) body))
          ∧ rest (DecodeMessage r)
            = mkReader (drop (Z.to_nat len) body) (at_end r))
       ∧ (v = ProtocolVersion → len ≤ MaxMessageSize →
          (length body < Z.to_nat len)%nat →
          ∃ err, outcome (DecodeMessage r)
                 = inr ("failed to read message data: " +:+ err)
                 ∧ pending (rest (DecodeMessage r)) = [])
       ∧ (len > MaxMessageSize →
          ∃ err, outcome (DecodeMessage r) = inr err
                 ∧ rest (DecodeMessage r) = mkReader body (at_end r)
                 ∧ allocs (DecodeMessage r) = [HeaderSize])).
Proof.
  destruct r as [s e]. cbn [pending at_end]. split.
  - intros Hshort. unfold DecodeMessage, ReadFull. cbn [pending at_end].
    change (Z.to_nat HeaderSize) with 8%nat.
    destruct (Nat.leb_spec 8 (length s)); [lia|].
    eexists. repeat split.
  - intros v t l0 l1 l2 l3 r0 r1 body ->.
    rewrite DecodeMessage_header. cbv zeta.
    pose proof (Uint32_range l0 l1 l2 l3) as Hr.
    set (len := Uint32 l0 l1 l2 l3) in *.
    split; [|split; [|split; [|split]]].
    + intros Hv. destruct (Byte.eqb v ProtocolVersion) eqn:E;
        [apply Byte.byte_dec_bl in E; contradiction|].
      split; [|split]; reflexivity.
    + intros -> Hgt.
      change (negb (Byte.eqb ProtocolVersion ProtocolVersion)) with false.
      cbv iota. destruct (Z.gtb_spec len MaxMessageSize); [|lia].
      split; [|split]; reflexivity.
    + intros -> Hle Hbody.
      change (negb (Byte.eqb ProtocolVersion ProtocolVersion)) with false.
      cbv iota. destruct (Z.gtb_spec len MaxMessageSize); [lia|].
      unfold ReadFull. cbn [pending at_end].
      destruct (Nat.leb_spec (Z.to_nat len) (length body)); [|lia].
      destruct (Z.gtb_spec len 0); [split; reflexivity|].
      replace len with 0 by lia. split; reflexivity.
    + intros -> Hle Hshort.
      change (negb (Byte.eqb ProtocolVersion ProtocolVersion)) with false.
      cbv iota. destruct (Z.gtb_spec len MaxMessageSize); [lia|].
      destruct (Z.gtb_spec len 0); [|lia].
      unfold ReadFull. cbn [pending at_end].
      destruct (Nat.leb_spec (Z.to_nat len) (length body)); [lia|].
      eexists. split; reflexivity.
    + intros Hgt. destruct (negb (Byte.eqb v ProtocolVersion)).
      * eexists. split; [|split]; reflexivity.
      * destruct (Z.gtb_spec len MaxMessageSize); [|lia].
        eexists. split; [|split]; reflexivity.
Qed.

End codec.

(** ** The repository *)

Section repository.
Import golang models database scenario.

(** The row [UpdateRequestStatus] leaves in place of [r]. *)
Lemma UpdateRequestStatus_row (now requestID : Z) (status : RequestStatus)
    (errorMsg : option string) (db : DB) (id : Z) :
  unsend_data (UpdateRequestStatus None now requestID status errorMsg db).1 !! id
  = if decide (requestID = id)
    then (λ r, UnsendData.mk (UnsendData.ID r) (UnsendData.ClientPort r)
                 (UnsendData.BinaryData r) status (UnsendData.CreatedAt r)
                 now (UnsendData.RetryCount r) errorMsg)
           <$> unsend_data db !! id
    else unsend_data db !! id.
Proof.
  cbn [UpdateRequestStatus fst unsend_data]. rewrite lookup_alter.
  case_decide; [subst|]; reflexivity.
Qed.

Lemma IncrementRetryCount_row (now requestID : Z) (db : DB) (id : Z) :
  unsend_data (IncrementRetryCount None now requestID db).1 !! id
  = if decide (requestID = id)
    then (λ r, UnsendData.mk (UnsendData.ID r) (UnsendData.ClientPort r)
                 (UnsendData.BinaryData r) (UnsendData.Status r)
                 (UnsendData.CreatedAt r) now (UnsendData.RetryCount r + 1)
                 (UnsendData.LastError r))
           <$> unsend_data db !! id
    else unsend_data db !! id.
Proof.
  cbn [IncrementRetryCount fst unsend_data]. rewrite lookup_alter.
  case_decide; [subst|]; reflexivity.
Qed.


(** A statement the driver rejects changes no table. *)
Lemma UpdateRequestStatus_failed (e : string) (now requestID : Z)
    (status : RequestStatus) (errorMsg : option string) (db : DB) :
  (UpdateRequestStatus (Some e) now requestID status errorMsg db).1 = db.
Proof. reflexivity. Qed.

(** C10.  [MarkAsSending] and [MarkAsComplete], when the statement runs,
    return no error and rewrite the row of [requestID] with the new status,
    [updated_at] set to the time of the call and [last_error] set to NULL,
    whatever error text it held; [id], [client_port], [binary_data],
    [created_at] and [retry_count] keep their values, every other row and
    the response table are as before. *)
Theorem mark_sending_complete_clear_last_error (now requestID : Z) (db : DB)
    (r : UnsendData.t) :
  unsend_data db !! requestID = Some r →
  let written status :=
    UnsendData.mk (UnsendData.ID r) (UnsendData.ClientPort r)
      (UnsendData.BinaryData r) status (UnsendData.CreatedAt r) now
      (UnsendData.RetryCount r) None in
  (MarkAsSending None now requestID db).2 = None
  ∧ unsend_data (MarkAsSending None now requestID db).1 !! requestID
    = Some (written StatusSending)
  ∧ (MarkAsComplete None now requestID db).2 = None
  ∧ unsend_data (MarkAsComplete None now requestID db).1 !! requestID
    = Some (written StatusComplete)
  ∧ (∀ id, id ≠ requestID →
       unsend_data (MarkAsSending None now requestID db).1 !! id
       = unsend_data db !! id
       ∧ unsend_data (MarkAsComplete None now requestID db).1 !! id
         = unsend_data db !! id)
  ∧ api_responses (MarkAsSending None now requestID db).1 = api_responses db
  ∧ api_responses (MarkAsComplete None now requestID db).1 = api_responses db.
Proof.
  intros Hr written. unfold MarkAsSending, MarkAsComplete.
  rewrite !UpdateRequestStatus_row.
  rewrite !decide_True by reflexivity. rewrite Hr.
  repeat split; try reflexivity.
  all: rewrite UpdateRequestStatus_row, decide_False by congruence.
  all: reflexivity.
Qed.

Lemma mark_sending_complete_clear_last_error_witness :
  unsend_data (mkDB {[42 := failed_row_42]} []) !! 42 = Some failed_row_42
  ∧ UnsendData.LastError
      <$> unsend_data
            (MarkAsSending None 3000 42 (mkDB {[42 := failed_row_42]} [])).1
          !! 42
    = Some None.
Proof.
  split; [reflexivity|].
  pose proof (mark_sending_complete_clear_last_error 3000 42
                (mkDB {[42 := failed_row_42]} []) failed_row_42 eq_refl)
    as (_ & Hrow & _).
  rewrite Hrow. reflexivity.
Defined.

(** Ordering keeps exactly the rows it is given. *)
Lemma elem_of_insert_by_created_at (x r : UnsendData.t)
    (l : list UnsendData.t) :
  x ∈ insert_by_created_at r l ↔ x = r ∨ x ∈ l.
Proof.
  induction l as [|y l IH]; cbn [insert_by_created_at].
  - rewrite elem_of_cons. reflexivity.
  - destruct (UnsendData.CreatedAt r <=? UnsendData.CreatedAt y).
    + rewrite elem_of_cons. reflexivity.
    + rewrite !elem_of_cons, IH. tauto.
Qed.

Lemma elem_of_order_by_created_at (x : UnsendData.t) (l : list UnsendData.t) :
  x ∈ order_by_created_at l ↔ x ∈ l.
Proof.
  unfold order_by_created_at. induction l as [|y l IH]; cbn [foldr].
  - reflexivity.
  - rewrite elem_of_insert_by_created_at, IH, elem_of_cons. reflexivity.
Qed.

Lemma length_insert_by_created_at (r : UnsendData.t) (l : list UnsendData.t) :
  length (insert_by_created_at r l) = S (length l).
Proof.
  induction l as [|y l IH]; cbn [insert_by_created_at]; [reflexivity|].
  destruct (UnsendData.CreatedAt r <=? UnsendData.CreatedAt y);
    cbn [length]; [reflexivity|]. by rewrite IH.
Qed.

Lemma length_order_by_created_at (l : list UnsendData.t) :
  length (order_by_created_at l) = length l.
Proof.
  unfold order_by_created_at. induction l as [|y l IH]; cbn [foldr length].
  - reflexivity.
  - by rewrite length_insert_by_created_at, IH.
Qed.

(** The rows [FetchPendingRequests] can return are the unlocked rows of the
    table whose status is [pending]: nothing else is returned, and with a
    limit that covers the table all of them are.  [retry_count] plays no
    part. *)
Lemma FetchPendingRequests_eligible (locked : gset Z) (limit : Z) (db : DB)
    (rows : list UnsendData.t) :
  FetchPendingRequests None locked limit db = inl rows →
  (∀ r, r ∈ rows →
        (∃ k, unsend_data db !! k = Some r)
        ∧ UnsendData.Status r = StatusPending
        ∧ UnsendData.ID r ∉ locked)
  ∧ (Z.of_nat (size (unsend_data db)) ≤ limit →
     ∀ k r, unsend_data db !! k = Some r →
            UnsendData.Status r = StatusPending →
            UnsendData.ID r ∉ locked →
            r ∈ rows).
Proof.
  unfold FetchPendingRequests. intros [= <-].
  set (unlocked := filter _ (map_to_list (unsend_data db)).*2).
  assert (Hin : ∀ r, r ∈ order_by_created_at
                           (filter where_status_pending unlocked)
                     ↔ (∃ k, unsend_data db !! k = Some r)
                       ∧ UnsendData.Status r = StatusPending
                       ∧ UnsendData.ID r ∉ locked).
  { intros r. rewrite elem_of_order_by_created_at.
    unfold unlocked, where_status_pending.
    rewrite !list_elem_of_filter, list_elem_of_fmap.
    split.
    - intros [Hs [Hl ([k r'] & -> & Hk)]].
      apply elem_of_map_to_list in Hk. eauto.
    - intros [[k Hk] [Hs Hl]]. split; [done|]. split; [done|].
      exists (k, r). split; [done|]. by apply elem_of_map_to_list. }
  split.
  - intros r Hr. apply Hin. by apply (subseteq_take (Z.to_nat limit)).
  - intros Hlimit k r Hk Hs Hl.
    rewrite take_ge; [apply Hin; eauto|].
    rewrite length_order_by_created_at.
    etransitivity; [apply length_filter|].
    unfold unlocked. etransitivity; [apply length_filter|].
    rewrite length_fmap, length_map_to_list. lia.
Qed.

(** C1 (the code departs from the specification).  A pending row whose
    [retry_count] has reached the ceiling (3, the configured [MaxRetries]
    of [Default()]) is returned by [FetchPendingRequests]: the [WHERE]
    clause tests the status only. *)
Theorem FetchPendingRequests_returns_row_at_ceiling :
  UnsendData.RetryCount row_at_ceiling = config.MaxRetries config.Default_API
  ∧ FetchPendingRequests None ∅ 10 (mkDB {[7 := row_at_ceiling]} [])
    = inl [row_at_ceiling].
Proof. split; reflexivity. Qed.

End repository.

(** ** The connection registry *)

Section registry.
Import golang models server scenario.

(** [Unregister] leaves no entry for the port. *)
Lemma Unregister_GetConnection (port : Z) (cm : ConnectionManager) :
  GetConnection port (Unregister port cm) = None.
Proof.
  unfold Unregister, GetConnection.
  destruct (connections cm !! port) eqn:E; cbn [connections].
  - apply lookup_delete_eq.
  - exact E.
Qed.

(** C5.  Eviction on write failure: when the port has an entry and the
    socket write reports an error, [SendData] returns the write failure, and
    on return the entry is gone from both maps and the socket has been
    closed, so that the lookup that follows finds nothing; the entries of
    the other ports are as before. *)
Theorem SendData_write_failure_evicts (write : Conn → list byte → error)
    (now port : Z) (data : list byte) (cm : ConnectionManager) (conn : Conn)
    (e : string) :
  GetConnection port cm = Some conn →
  write conn data = Some e →
  (SendData write now port data cm).2
  = Some ("failed to send data to port " +:+ pretty port +:+ ": " +:+ e)
  ∧ GetConnection port (SendData write now port data cm).1 = None
  ∧ connInfo (SendData write now port data cm).1 !! port = None
  ∧ closed (SendData write now port data cm).1 = conn :: closed cm
  ∧ (∀ other, other ≠ port →
       GetConnection other (SendData write now port data cm).1
       = GetConnection other cm).
Proof.
  intros Hconn Hwrite. unfold SendData. rewrite Hconn, Hwrite.
  cbn [fst snd]. unfold GetConnection in *. unfold Unregister.
  cbn [connections connInfo closed]. rewrite Hconn.
  cbn [connections connInfo closed].
  split; [reflexivity|]. split; [apply lookup_delete_eq|].
  split; [apply lookup_delete_eq|]. split; [reflexivity|].
  intros other Hne. by apply lookup_delete_ne.
Qed.

Lemma SendData_write_failure_evicts_witness :
  GetConnection 54321 one_client = Some client_54321
  ∧ GetConnection 54321
      (SendData (λ _ _, Some "broken pipe") 2000 54321 [x01] one_client).1
    = None.
Proof.
  split; [reflexivity|].
  apply (SendData_write_failure_evicts (λ _ _, Some "broken pipe") 2000 54321
           [x01] one_client client_54321 "broken pipe" eq_refl eq_refl).
Defined.

End registry.

(** ** The worker pool *)

Section pool.
Import golang models config worker scenario.

Lemma NewPool_wf (cfg : WorkerConfig) (p : Pool) :
  NewPool cfg = Returns p → pool_wf p ∧ pool_config p = cfg.
Proof.
  unfold NewPool, make_chan.
  destruct (Z.ltb_spec (QueueSize cfg) 0); [discriminate|].
  intros [= <-]. repeat split; cbn; lia.
Qed.

Lemma Start_wf (p : Pool) : pool_wf p → pool_wf (Start p).
Proof. intros Hwf. exact Hwf. Qed.

Lemma worker_parks_wf (p : Pool) : pool_wf p → pool_wf (worker_parks p).
Proof.
  intros Hwf. unfold worker_parks.
  destruct (ctx_done p || is_closed (jobs p)
            || negb (bool_decide (buf (jobs p) = []))) eqn:E; [exact Hwf|].
  apply orb_false_elim in E as [_ E]. apply negb_false_iff in E.
  apply bool_decide_eq_true in E.
  destruct Hwf as [(Hcap & Hlen & Hrecv) Hcfg].
  repeat split; cbn; auto.
Qed.

Lemma Submit_wf (pick_send : bool) (job : ProcessingJob.t) (p : Pool) :
  pool_wf p → pool_wf (Submit pick_send job p).1.
Proof.
  intros Hwf. unfold Submit.
  destruct (can_send (jobs p) && (negb (ctx_done p) || pick_send)) eqn:E.
  - unfold send. destruct (is_closed (jobs p)) eqn:Hc; [exact Hwf|].
    unfold can_send in E. rewrite Hc in E. cbn [orb] in E.
    destruct Hwf as [(Hcap & Hlen & Hrecv) Hcfg].
    destruct (Nat.ltb_spec 0 (receivers (jobs p))) as [Hr|Hr];
      cbn [fst jobs pool_config].
    + repeat split; cbn; auto; try lia.
    + cbn [orb] in E. apply andb_prop in E as [E _].
      apply Z.ltb_lt in E.
      repeat split; cbn; auto; try lia; rewrite length_app; cbn; lia.
  - destruct (ctx_done p); exact Hwf.
Qed.





(** After [Stop] has returned, the job channel is closed and the context is
    cancelled: both cases of the [select] in [Submit] can proceed.  When
    the scheduler picks the send, [Submit] panics; when it picks
    [<-p.ctx.Done()], [Submit] returns [context.Canceled]. *)
Lemma Submit_after_Stop (drained : nat) (job : ProcessingJob.t)
    (p p' : Pool) :
  Stop drained p = Returns p' →
  Submit true job p' = (p', Panics "send on closed channel")
  ∧ Submit false job p' = (p', Returns (Some context_Canceled)).
Proof.
  unfold Stop, close.
  destruct (is_closed (jobs p)); [discriminate|].
  destruct (is_closed (results p)); [discriminate|].
  intros [= <-]. split; reflexivity.
Qed.

(** C9 (the code departs from the specification).  A pool made with the default
    configuration, started and stopped: a [Submit] in which the scheduler
    picks the send case panics with "send on closed channel". *)
Theorem Submit_after_Stop_panics :
  ∃ p p',
    NewPool Default_Worker = Returns p
    ∧ Stop 0 (Start p) = Returns p'
    ∧ ctx_done p' = true
    ∧ is_closed (jobs p') = true
    ∧ Submit true job_42 p' = (p', Panics "send on closed channel").
Proof.
  eexists. eexists. split; [reflexivity|]. split; [reflexivity|].
  split; [reflexivity|]. split; reflexivity.
Qed.

End pool.

(** ** The upstream client *)

Section client.
Import golang models libs config api.
Context `{Encoding}.

Lemma int64_small (x : Z) : - 2 ^ 63 ≤ x < 2 ^ 63 → int64 x = x.
Proof. intros Hx. unfold int64. rewrite Z.mod_small; lia. Qed.

(** The retries from attempt [a ≥ 1] on, [n] of them, all failing. *)
Lemma retry_loop_all_fail (cfg : APIConfig) (up : Upstream) (n : nat) :
  ∀ (a : Z) (lastErr : error),
    1 ≤ a →
    (∀ k, a ≤ k < a + Z.of_nat n → attempt_fails up k) →
    (∀ k, a ≤ k < a + Z.of_nat n → - 2 ^ 63 ≤ RetryDelay cfg * k < 2 ^ 63) →
    let schedule :=
      flat_map (λ k, [Wait (RetryDelay cfg * k); Attempt k])
        (seqZ a (Z.of_nat n)) in
    ∃ e, (retry_loop cfg up n a lastErr).2 = inr e
         ∧ (retry_loop cfg up n a lastErr).1 `prefix_of` schedule
         ∧ ((∀ k, a ≤ k < a + Z.of_nat n → ctx_ends up k = None) →
            (retry_loop cfg up n a lastErr).1 = schedule
            ∧ e = exhausted cfg
                    (if n is O then lastErr
                     else Some (attempt_error up (a + Z.of_nat n - 1)))).
Proof.
  induction n as [|n IH]; intros a lastErr Ha Hfail Hrange schedule.
  - eexists. split; [reflexivity|]. split; [reflexivity|].
    intros _. split; reflexivity.
  - assert (Hseq : schedule
                   = Wait (RetryDelay cfg * a) :: Attempt a
                       :: flat_map (λ k, [Wait (RetryDelay cfg * k); Attempt k])
                            (seqZ (a + 1) (Z.of_nat n))).
    { unfold schedule. rewrite seqZ_cons by lia.
      replace (Z.pred (Z.of_nat (S n))) with (Z.of_nat n) by lia.
      reflexivity. }
    rewrite Hseq. cbn [retry_loop].
    rewrite int64_small by (apply Hrange; lia).
    destruct (Z.gtb_spec a 0) as [_|]; [|lia].
    destruct (ctx_ends up a) as [cancel|] eqn:Hctx.
    + eexists. split; [reflexivity|]. split.
      * cbn [fst]. apply prefix_cons, prefix_nil.
      * intros Hnone. rewrite Hnone in Hctx by lia. discriminate.
    + destruct (Hfail a ltac:(lia)) as [e0 He0].
      pose proof He0 as He0'. unfold attempt_fails in *.
      rewrite He0.
      destruct (IH (a + 1) (Some e0) ltac:(lia)
                  ltac:(intros k Hk; apply Hfail; lia)
                  ltac:(intros k Hk; apply Hrange; lia))
        as (e & Hres & Hpre & Hexact).
      destruct (retry_loop cfg up n (a + 1) (Some e0)) as [evs r] eqn:Hloop.
      cbn [fst snd] in *. exists e. split; [exact Hres|]. split.
      * cbn [app]. by apply prefix_cons, prefix_cons.
      * intros Hnone.
        destruct (Hexact ltac:(intros k Hk; apply Hnone; lia)) as [-> ->].
        split; [reflexivity|]. f_equal.
        destruct n as [|n].
        -- unfold attempt_error.
           replace (a + Z.of_nat 1 - 1) with a by lia. by rewrite He0'.
        -- f_equal. f_equal. lia.
Qed.

(** All attempts fail: [SendRequest] returns an error; what it did is a
    prefix of the linear schedule, the whole of it when the context
    outlives every wait, and then the error is that of the last attempt. *)
Lemma SendRequest_all_fail (cfg : APIConfig) (up : Upstream)
    (request : APIRequest.t) (requestBody : list byte) :
  json_Marshal_request request = inl requestBody →
  0 ≤ MaxRetries cfg →
  0 ≤ RetryDelay cfg →
  RetryDelay cfg * MaxRetries cfg < 2 ^ 63 →
  (∀ k, 0 ≤ k ≤ MaxRetries cfg → attempt_fails up k) →
  ∃ e, (SendRequest cfg up request).2 = inr e
       ∧ (SendRequest cfg up request).1
           `prefix_of` linear_backoff (RetryDelay cfg) (MaxRetries cfg)
       ∧ ((∀ k, 1 ≤ k ≤ MaxRetries cfg → ctx_ends up k = None) →
          (SendRequest cfg up request).1
          = linear_backoff (RetryDelay cfg) (MaxRetries cfg)
          ∧ e = exhausted cfg (Some (attempt_error up (MaxRetries cfg)))).
Proof.
  intros Hmarshal Hmax Hdelay Hfit Hfail.
  unfold SendRequest. rewrite Hmarshal.
  replace (Z.to_nat (MaxRetries cfg + 1)) with (S (Z.to_nat (MaxRetries cfg)))
    by lia.
  cbn [retry_loop]. change (0 >? 0) with false. cbv iota.
  destruct (Hfail 0 ltac:(lia)) as [e0 He0]. pose proof He0 as He0'.
  unfold attempt_fails in *. rewrite He0. change (0 + 1) with 1.
  destruct (retry_loop_all_fail cfg up (Z.to_nat (MaxRetries cfg)) 1 (Some e0)
              ltac:(lia)
              ltac:(intros k Hk; apply Hfail; lia)
              ltac:(intros k Hk; nia))
    as (e & Hres & Hpre & Hexact).
  rewrite Z2Nat.id in Hpre, Hexact by lia.
  destruct (retry_loop cfg up (Z.to_nat (MaxRetries cfg)) 1 (Some e0))
    as [evs r] eqn:Hloop.
  cbn [fst snd app] in *. exists e. split; [exact Hres|]. split.
  - unfold linear_backoff. by apply prefix_cons.
  - intros Hnone.
    destruct (Hexact ltac:(intros k Hk; apply Hnone; lia)) as [-> ->].
    split; [reflexivity|]. f_equal.
    destruct (Z.to_nat (MaxRetries cfg)) as [|m] eqn:Hm.
    + replace (MaxRetries cfg) with 0 by lia.
      unfold attempt_error. by rewrite He0'.
    + f_equal. f_equal. lia.
Qed.

End client.

(** ** The processor *)

Section processor.
Import golang models libs config database server api worker.
Context `{Encoding}.

Lemma calls_of_app (s : Site) (l1 l2 : list Event) :
  calls_of s (l1 ++ l2) = (calls_of s l1 + calls_of s l2)%nat.
Proof. unfold calls_of. by rewrite filter_app, length_app. Qed.

Lemma calls_of_client (s : Site) (evs : list ClientEvent) :
  calls_of s (map Client evs) = 0%nat.
Proof.
  unfold calls_of. induction evs as [|e evs IH]; [reflexivity|].
  cbn [map]. rewrite filter_cons_False by discriminate. exact IH.
Qed.

Lemma calls_of_cons (s s' : Site) (l : list Event) :
  calls_of s (RepoCall s' :: l)
  = ((if decide (s' = s) then 1 else 0) + calls_of s l)%nat.
Proof.
  unfold calls_of. rewrite filter_cons.
  destruct (decide (RepoCall s' = RepoCall s)) as [E|E],
    (decide (s' = s)) as [E'|E']; try reflexivity.
  - injection E as E. contradiction.
  - subst s'. contradiction.
Qed.

(** The failure handler, when its two writes succeed: the row is [failed]
    with the error text, its retry count one higher; two repository calls
    are made and the registry is not touched. *)
Lemma handleError_effect (env : Env) (requestID : Z) (msg : string)
    (w : World) (r : UnsendData.t) :
  row_of requestID w = Some r →
  driver env AtMarkAsFailed = None →
  driver env AtIncrementRetryCount = None →
  row_of requestID (handleError env requestID msg w)
  = Some (failed_row r (time_Now env AtIncrementRetryCount) msg)
  ∧ log (handleError env requestID msg w)
    = log w ++ [RepoCall AtMarkAsFailed; RepoCall AtIncrementRetryCount]
  ∧ connMgr (handleError env requestID msg w) = connMgr w.
Proof.
  unfold row_of. intros Hr Hf Hi. unfold handleError, MarkAsFailed.
  rewrite Hf, Hi. cbn [UpdateRequestStatus IncrementRetryCount db log connMgr].
  split; [|split; reflexivity].
  cbn [unsend_data]. rewrite !lookup_alter, !decide_True by reflexivity.
  rewrite Hr. reflexivity.
Qed.

(** The row once step 1 has run: untouched when the write failed, marked
    [sending] when it succeeded.  Either way the failure handler leaves the
    same row. *)
Lemma failed_row_marked (r : UnsendData.t) (status : RequestStatus)
    (t now : Z) (msg : string) :
  failed_row (marked_row r status t) now msg = failed_row r now msg.
Proof. reflexivity. Qed.

Lemma MarkAsSending_row_of (env : Env) (requestID : Z) (w : World)
    (r : UnsendData.t) :
  row_of requestID w = Some r →
  driver env AtMarkAsSending = None →
  unsend_data
    (MarkAsSending (driver env AtMarkAsSending) (time_Now env AtMarkAsSending)
       requestID (db w)).1 !! requestID
  = Some (marked_row r StatusSending (time_Now env AtMarkAsSending)).
Proof.
  unfold row_of. intros Hr ->. unfold MarkAsSending.
  rewrite UpdateRequestStatus_row, decide_True, Hr by reflexivity.
  reflexivity.
Qed.

(** C3.  When steps 1-5, 7 and 8 succeed, [Process] reports success
    whatever the driver answers to [InsertAPIResponse] (step 6),
    [MarkAsComplete] (step 9) and [DeleteProcessedRequest] (step 10): the
    result has [Success = true], no error and the binary response; the
    repository calls of the run are exactly those of steps 1, 6, 9 and 10,
    so the failure handler never ran; and the row, if still there, is
    [sending] or [complete], with the retry count it had. *)
Theorem Process_succeeds_despite_storage_errors (cfg : APIConfig) (env : Env)
    (request : UnsendData.t) (w : World) (apiRequest : APIRequest.t)
    (events : list ClientEvent) (apiResponse : APIResponsePayload.t)
    (binaryResponse : list byte) (cm8 : ConnectionManager) :
  driver env AtMarkAsSending = None →
  transformer.ValidateBinaryData (UnsendData.BinaryData request) = None →
  transformer.BinaryToAPIRequest (time_Now env AtBinaryToAPIRequest)
    (UnsendData.ID request) (UnsendData.ClientPort request)
    (UnsendData.BinaryData request) = inl apiRequest →
  SendRequest cfg (upstream env) apiRequest = (events, inl apiResponse) →
  transformer.ValidateAPIResponse (Some apiResponse) = None →
  transformer.APIResponseToBinary (Some apiResponse) = inl binaryResponse →
  sendToClient env (UnsendData.ClientPort request) binaryResponse (connMgr w)
  = (cm8, None) →
  ProcessingResult.Success (Process cfg env request w).2 = true
  ∧ ProcessingResult.Error (Process cfg env request w).2 = None
  ∧ ProcessingResult.Response (Process cfg env request w).2 = binaryResponse
  ∧ log (Process cfg env request w).1
    = log w ++ RepoCall AtMarkAsSending :: map Client events
        ++ [RepoCall AtInsertAPIResponse; RepoCall AtMarkAsComplete;
            RepoCall AtDeleteProcessedRequest]
  ∧ (∀ r', row_of (UnsendData.ID request) (Process cfg env request w).1
           = Some r' →
           (UnsendData.Status r' = StatusSending
            ∨ UnsendData.Status r' = StatusComplete)
           ∧ UnsendData.RetryCount <$> row_of (UnsendData.ID request) w
             = Some (UnsendData.RetryCount r')).
Proof.
  intros H1 H2 H3 H4 H5 H7 H8.
  unfold Process, MarkAsSending. rewrite H1.
  cbn [UpdateRequestStatus]. rewrite H2, H3. cbn [db connMgr log].
  rewrite H4, H5. cbn [db connMgr log].
  set (db6 := InsertAPIResponse _ _ _).
  assert (Hdb6 : unsend_data db6.1
                 = alter (λ r, marked_row r StatusSending
                                 (time_Now env AtMarkAsSending))
                     (UnsendData.ID request) (unsend_data (db w))).
  { unfold db6, InsertAPIResponse.
    destruct (driver env AtInsertAPIResponse); reflexivity. }
  destruct db6 as [d6 e6]. cbn [fst] in Hdb6. cbn [db connMgr log].
  rewrite H7, H8. cbn [db connMgr log].
  set (db9 := MarkAsComplete _ _ _ _).
  assert (Hdb9 : ∀ r', unsend_data db9.1 !! UnsendData.ID request = Some r' →
                       ∃ r, unsend_data (db w) !! UnsendData.ID request = Some r
                            ∧ UnsendData.RetryCount r' = UnsendData.RetryCount r
                            ∧ (UnsendData.Status r' = StatusSending
                               ∨ UnsendData.Status r' = StatusComplete)).
  { unfold db9, MarkAsComplete, UpdateRequestStatus.
    destruct (driver env AtMarkAsComplete); cbn [fst unsend_data];
      rewrite ?lookup_alter, ?decide_True by reflexivity;
      rewrite Hdb6, lookup_alter, decide_True by reflexivity;
      destruct (unsend_data (db w) !! UnsendData.ID request) as [r|];
      intros r' [= <-]; exists r; cbn; auto. }
  destruct db9 as [d9 e9]. cbn [fst] in Hdb9. cbn [db connMgr log].
  set (db10 := DeleteProcessedRequest _ _ _ _).
  assert (Hdb10 : ∀ r', unsend_data db10.1 !! UnsendData.ID request = Some r' →
                        unsend_data d9 !! UnsendData.ID request = Some r').
  { unfold db10, DeleteProcessedRequest.
    destruct (driver env AtDeleteProcessedRequest); [done|].
    intros r'. destruct (rows_affected env);
      [|destruct (_ =? 0)]; cbn [fst unsend_data];
      rewrite lookup_delete_eq; discriminate. }
  destruct db10 as [d10 e10]. cbn [fst] in Hdb10.
  cbn [fst snd ProcessingResult.Success ProcessingResult.Error
       ProcessingResult.Response log db].
  split; [reflexivity|]. split; [reflexivity|]. split; [reflexivity|].
  split.
  - rewrite <- !app_assoc. reflexivity.
  - unfold row_of. cbn [db]. intros r' Hr'.
    destruct (Hdb9 r' (Hdb10 r' Hr')) as (r & Hr & Hcount & Hstatus).
    rewrite Hr. cbn. split; [exact Hstatus|]. by rewrite Hcount.
Qed.

(** [Process] when the upstream call returns an error: the failure
    handler runs once, after the client's events. *)
Lemma Process_upstream_error (cfg : APIConfig) (env : Env)
    (request : UnsendData.t) (w : World) (apiRequest : APIRequest.t)
    (events : list ClientEvent) (e : string) :
  driver env AtMarkAsSending = None →
  transformer.ValidateBinaryData (UnsendData.BinaryData request) = None →
  transformer.BinaryToAPIRequest (time_Now env AtBinaryToAPIRequest)
    (UnsendData.ID request) (UnsendData.ClientPort request)
    (UnsendData.BinaryData request) = inl apiRequest →
  SendRequest cfg (upstream env) apiRequest = (events, inr e) →
  Process cfg env request w
  = abort env request
      (ProcessingResult.mk (UnsendData.ID request)
         (UnsendData.ClientPort request) false [] None 0)
      ("API request failed: " +:+ e)
      (mkWorld
         (MarkAsSending None (time_Now env AtMarkAsSending)
            (UnsendData.ID request) (db w)).1
         (connMgr w)
         ((log w ++ [RepoCall AtMarkAsSending]) ++ map Client events)).
Proof.
  intros H1 H2 H3 H4. unfold Process, MarkAsSending. rewrite H1.
  cbn [UpdateRequestStatus]. rewrite H2, H3. cbn [db connMgr log].
  rewrite H4. reflexivity.
Qed.

(** C4.  Upstream outage.  The job reaches the upstream call (steps 1-3
    succeed, the request marshals) and every attempt [0 .. MaxRetries]
    fails.  Then [SendRequest] returns an error, and what it did is a
    prefix of the linear schedule: attempt 0, then for each retry [k] a
    wait of [RetryDelay × k] and attempt [k], at most [MaxRetries] retries;
    when the job's context outlives the waits it is the whole schedule and
    the error is the one of the last attempt.  The processor then calls
    [MarkAsFailed] once and [IncrementRetryCount] once: with both writes
    succeeding the row is [failed], carries the error and its retry count
    is one higher.  [RetryDelay] is not negative and the longest delay
    fits a [time.Duration]. *)
Theorem Process_upstream_outage (cfg : APIConfig) (env : Env)
    (request : UnsendData.t) (w : World) (r0 : UnsendData.t)
    (apiRequest : APIRequest.t) (requestBody : list byte) :
  row_of (UnsendData.ID request) w = Some r0 →
  driver env AtMarkAsSending = None →
  transformer.ValidateBinaryData (UnsendData.BinaryData request) = None →
  transformer.BinaryToAPIRequest (time_Now env AtBinaryToAPIRequest)
    (UnsendData.ID request) (UnsendData.ClientPort request)
    (UnsendData.BinaryData request) = inl apiRequest →
  json_Marshal_request apiRequest = inl requestBody →
  0 ≤ MaxRetries cfg →
  0 ≤ RetryDelay cfg →
  RetryDelay cfg * MaxRetries cfg < 2 ^ 63 →
  (∀ k, 0 ≤ k ≤ MaxRetries cfg → attempt_fails (upstream env) k) →
  driver env AtMarkAsFailed = None →
  driver env AtIncrementRetryCount = None →
  ∃ e,
    (SendRequest cfg (upstream env) apiRequest).2 = inr e
    ∧ (SendRequest cfg (upstream env) apiRequest).1
        `prefix_of` linear_backoff (RetryDelay cfg) (MaxRetries cfg)
    ∧ ((∀ k, 1 ≤ k ≤ MaxRetries cfg → ctx_ends (upstream env) k = None) →
       (SendRequest cfg (upstream env) apiRequest).1
       = linear_backoff (RetryDelay cfg) (MaxRetries cfg)
       ∧ e = exhausted cfg
               (Some (attempt_error (upstream env) (MaxRetries cfg))))
    ∧ ProcessingResult.Success (Process cfg env request w).2 = false
    ∧ ProcessingResult.Error (Process cfg env request w).2
      = Some ("API request failed: " +:+ e)
    ∧ log (Process cfg env request w).1
      = log w ++ RepoCall AtMarkAsSending
          :: map Client (SendRequest cfg (upstream env) apiRequest).1
          ++ [RepoCall AtMarkAsFailed; RepoCall AtIncrementRetryCount]
    ∧ calls_of AtMarkAsFailed (log (Process cfg env request w).1)
      = S (calls_of AtMarkAsFailed (log w))
    ∧ calls_of AtIncrementRetryCount (log (Process cfg env request w).1)
      = S (calls_of AtIncrementRetryCount (log w))
    ∧ row_of (UnsendData.ID request) (Process cfg env request w).1
      = Some (failed_row r0 (time_Now env AtIncrementRetryCount)
                ("API request failed: " +:+ e)).
Proof.
  intros Hrow H1 H2 H3 Hmarshal Hmax Hdelay Hfit Hfail Hf Hi.
  destruct (SendRequest_all_fail cfg (upstream env) apiRequest requestBody
              Hmarshal Hmax Hdelay Hfit Hfail) as (e & Hres & Hpre & Hexact).
  exists e. split; [exact Hres|]. split; [exact Hpre|]. split; [exact Hexact|].
  destruct (SendRequest cfg (upstream env) apiRequest) as [events r] eqn:Hsend.
  cbn [fst snd] in *. subst r.
  rewrite (Process_upstream_error cfg env request w apiRequest events e
             H1 H2 H3 Hsend).
  unfold abort. cbn [fst snd ProcessingResult.Success ProcessingResult.Error].
  set (w3 := mkWorld _ _ _).
  assert (Hrow3 : row_of (UnsendData.ID request) w3
                  = Some (marked_row r0 StatusSending
                            (time_Now env AtMarkAsSending))).
  { unfold row_of, w3. cbn [db]. rewrite <- H1.
    by apply MarkAsSending_row_of. }
  destruct (handleError_effect env (UnsendData.ID request)
              ("API request failed: " +:+ e) w3 _ Hrow3 Hf Hi)
    as (Hfailed & Hlog & _).
  rewrite Hlog, Hfailed, failed_row_marked. unfold w3. cbn [log].
  split; [reflexivity|]. split; [reflexivity|].
  split; [by rewrite <- !app_assoc|].
  rewrite !calls_of_app, !calls_of_client, !calls_of_cons.
  repeat case_decide; try discriminate; try congruence.
  cbn [calls_of filter list_filter length]. split; [|split]; [lia|lia|reflexivity].
Qed.



End processor.

(** ** The scenarios run *)

Section scenarios.
Import golang models libs config database server api worker scenario.



(** The happy path with the three writes after the upstream call rejected:
    the result is a success all the same. *)
Lemma Process_succeeds_despite_storage_errors_witness :
  (driver env_cleanup_fails AtInsertAPIResponse ≠ None
   ∧ driver env_cleanup_fails AtMarkAsComplete ≠ None
   ∧ driver env_cleanup_fails AtDeleteProcessedRequest ≠ None)
  ∧ ProcessingResult.Success
      (@Process scenario_encoding Default_API env_cleanup_fails row_42
         world_42).2 = true
  ∧ calls_of AtMarkAsFailed
      (log (@Process scenario_encoding Default_API env_cleanup_fails row_42
              world_42).1) = 0%nat.
Proof.
  split; [repeat split; discriminate|].
  pose proof (@Process_succeeds_despite_storage_errors scenario_encoding
                Default_API env_cleanup_fails row_42 world_42
                _ _ _ _ _ eq_refl eq_refl eq_refl eq_refl eq_refl eq_refl
                eq_refl) as (Hok & _ & _ & Hlog & _).
  split; [exact Hok|]. rewrite Hlog. reflexivity.
Defined.

(** The outage with the default configuration (three retries, one second):
    four attempts, waits of one, two and three seconds, one call of each
    method of the failure handler, and a retry count of one. *)
Lemma Process_upstream_outage_witness :
  log (@Process scenario_encoding Default_API env_outage row_42 world_42).1
  = [RepoCall AtMarkAsSending;
     Client (Attempt 0);
     Client (Wait 1000000000); Client (Attempt 1);
     Client (Wait 2000000000); Client (Attempt 2);
     Client (Wait 3000000000); Client (Attempt 3);
     RepoCall AtMarkAsFailed; RepoCall AtIncrementRetryCount]
  ∧ calls_of AtMarkAsFailed
      (log (@Process scenario_encoding Default_API env_outage row_42
              world_42).1) = 1%nat
  ∧ calls_of AtIncrementRetryCount
      (log (@Process scenario_encoding Default_API env_outage row_42
              world_42).1) = 1%nat
  ∧ UnsendData.RetryCount
      <$> row_of 42
            (@Process scenario_encoding Default_API env_outage row_42
               world_42).1
    = Some 1.
Proof.
  destruct (@Process_upstream_outage scenario_encoding Default_API env_outage
              row_42 world_42 row_42 _ [x7b; x7d]
              eq_refl eq_refl eq_refl eq_refl eq_refl
              ltac:(discriminate) ltac:(discriminate) eq_refl
              (λ k _, ex_intro _ _ eq_refl) eq_refl eq_refl)
    as (e & _ & _ & Hexact & _ & _ & Hlog & Hfailed & Hincr & Hrow).
  destruct (Hexact (λ _ _, eq_refl)) as [Hevents _].
  split; [rewrite Hlog, Hevents; reflexivity|].
  split; [exact Hfailed|]. split; [exact Hincr|].
  exact (f_equal (fmap UnsendData.RetryCount) Hrow).
Defined.

End scenarios.

(** * Further properties of the packages *)

(** ** The wire codec, continued *)

Section codec_frames.
Import golang protocol examples.

(** [DecodeMessage] on a stream that starts with a frame. *)
Lemma DecodeMessage_frame (msgType : MessageType) (p more : list byte)
    (e : string) :
  Z.of_nat (length p) ≤ MaxMessageSize →
  outcome (DecodeMessage (mkReader (frame_layout msgType p ++ more) e))
  = inl (mkMessage ProtocolVersion msgType (Z.of_nat (length p)) p)
  ∧ rest (DecodeMessage (mkReader (frame_layout msgType p ++ more) e))
    = mkReader more e.
Proof.
  intros Hlen. pose proof MaxMessageSize_lt_2_32 as Hmax.
  unfold frame_layout. cbn [app].
  rewrite DecodeMessage_header. cbv zeta.
  rewrite Uint32_PutUint32 by lia.
  change (negb (Byte.eqb ProtocolVersion ProtocolVersion)) with false.
  cbv iota.
  destruct (Z.gtb_spec (Z.of_nat (length p)) MaxMessageSize) as [|_]; [lia|].
  destruct (Z.gtb_spec (Z.of_nat (length p)) 0) as [Hpos|Hzero].
  - rewrite Nat2Z.id, ReadFull_app. split; reflexivity.
  - destruct p; [split; reflexivity|]. cbn [length] in Hzero. lia.
Qed.

(** X1.  Whatever the stream, a message [DecodeMessage] returns is well
    formed: its version is 1, its length field is between 0 and
    [MaxMessageSize] and is the number of payload bytes, and the stream was
    consumed by exactly the eight header bytes and that payload. *)
Theorem DecodeMessage_message_wellformed (r : Reader) (m : Message) :
  outcome (DecodeMessage r) = inl m →
  Version m = ProtocolVersion
  ∧ 0 ≤ Length m ≤ MaxMessageSize
  ∧ Z.of_nat (length (Data m)) = Length m
  ∧ ∃ header,
      length header = 8%nat
      ∧ pending r = header ++ Data m ++ pending (rest (DecodeMessage r))
      ∧ at_end (rest (DecodeMessage r)) = at_end r.
Proof.
  destruct r as [s e].
  destruct s as [|v [|t [|l0 [|l1 [|l2 [|l3 [|r0 [|r1 body]]]]]]]];
    try (cbn; discriminate).
  rewrite DecodeMessage_header. cbv zeta.
  pose proof (Uint32_range l0 l1 l2 l3) as Hr.
  set (len := Uint32 l0 l1 l2 l3) in *.
  destruct (Byte.eqb v ProtocolVersion) eqn:Hv; cbn [negb]; [|discriminate].
  apply Byte.byte_dec_bl in Hv. subst v.
  destruct (Z.gtb_spec len MaxMessageSize) as [|Hle]; [discriminate|].
  destruct (Z.gtb_spec len 0) as [Hpos|Hzero].
  - unfold ReadFull. cbn [pending at_end].
    destruct (Nat.leb_spec (Z.to_nat len) (length body)) as [Hbody|];
      [|discriminate].
    cbn [outcome rest pending at_end]. intros [= <-].
    cbn [Version Length Data]. split; [reflexivity|]. split; [lia|].
    split; [rewrite length_take; lia|].
    exists [ProtocolVersion; t; l0; l1; l2; l3; r0; r1].
    split; [reflexivity|]. split; [|reflexivity].
    cbn [app]. by rewrite take_drop.
  - cbn [outcome rest pending at_end]. intros [= <-].
    cbn [Version Length Data]. split; [reflexivity|]. split; [lia|].
    split; [cbn; lia|].
    exists [ProtocolVersion; t; l0; l1; l2; l3; r0; r1].
    split; [reflexivity|]. split; reflexivity.
Qed.

Lemma DecodeMessage_message_wellformed_witness :
  Z.of_nat (length (Data pong_message)) = Length pong_message
  ∧ Length pong_message ≤ MaxMessageSize.
Proof.
  pose proof (DecodeMessage_message_wellformed (NewReader pong_frame)
                pong_message eq_refl) as (_ & Hlen & Hdata & _).
  split; [exact Hdata|]. apply Hlen.
Defined.

(** X2.  Frames delimit themselves: on a stream that carries two encoded
    messages one after the other, the first [DecodeMessage] returns the
    first message and the second, run on the reader the first one leaves,
    returns the second and leaves what follows. *)
Theorem DecodeMessage_two_frames (t1 t2 : MessageType)
    (p1 p2 more : list byte) (e : string) :
  Z.of_nat (length p1) ≤ MaxMessageSize →
  Z.of_nat (length p2) ≤ MaxMessageSize →
  ∃ enc1 enc2,
    EncodeMessage t1 p1 = inl enc1
    ∧ EncodeMessage t2 p2 = inl enc2
    ∧ outcome (DecodeMessage (mkReader (enc1 ++ enc2 ++ more) e))
      = inl (mkMessage ProtocolVersion t1 (Z.of_nat (length p1)) p1)
    ∧ outcome (DecodeMessage
                 (rest (DecodeMessage (mkReader (enc1 ++ enc2 ++ more) e))))
      = inl (mkMessage ProtocolVersion t2 (Z.of_nat (length p2)) p2)
    ∧ rest (DecodeMessage
              (rest (DecodeMessage (mkReader (enc1 ++ enc2 ++ more) e))))
      = mkReader more e.
Proof.
  intros H1 H2.
  exists (frame_layout t1 p1), (frame_layout t2 p2).
  split; [by apply EncodeMessage_frame|].
  split; [by apply EncodeMessage_frame|].
  destruct (DecodeMessage_frame t1 p1 (frame_layout t2 p2 ++ more) e H1)
    as [Ho1 Hr1].
  destruct (DecodeMessage_frame t2 p2 more e H2) as [Ho2 Hr2].
  rewrite Hr1. auto.
Qed.

Lemma DecodeMessage_two_frames_witness :
  ∃ enc1 enc2,
    EncodeMessage MessageTypePing [] = inl enc1
    ∧ EncodeMessage MessageTypeRequest [xde; xad; xbe; xef] = inl enc2
    ∧ outcome (DecodeMessage (mkReader (enc1 ++ enc2 ++ []) EOF))
      = inl (mkMessage ProtocolVersion MessageTypePing 0 [])
    ∧ outcome (DecodeMessage
                 (rest (DecodeMessage (mkReader (enc1 ++ enc2 ++ []) EOF))))
      = inl (mkMessage ProtocolVersion MessageTypeRequest 4
               [xde; xad; xbe; xef])
    ∧ rest (DecodeMessage
              (rest (DecodeMessage (mkReader (enc1 ++ enc2 ++ []) EOF))))
      = mkReader [] EOF.
Proof.
  apply (DecodeMessage_two_frames MessageTypePing MessageTypeRequest
           [] [xde; xad; xbe; xef] [] EOF);
    vm_compute; discriminate.
Defined.

(** X3.  The two reserved header bytes are never interpreted: streams that
    differ in them only are decoded alike (result, reader left behind and
    buffers allocated). *)
Theorem DecodeMessage_ignores_reserved (v t l0 l1 l2 l3 r0 r1 r0' r1' : byte)
    (body : list byte) (e : string) :
  DecodeMessage
    (mkReader (v :: t :: l0 :: l1 :: l2 :: l3 :: r0 :: r1 :: body) e)
  = DecodeMessage
      (mkReader (v :: t :: l0 :: l1 :: l2 :: l3 :: r0' :: r1' :: body) e).
Proof. by rewrite !DecodeMessage_header. Qed.

(** X4.  [EncodeMessage] fails exactly on payloads longer than
    [MaxMessageSize]; otherwise its result is eight bytes longer than the
    payload, starts with the version and the type, and ends with the
    payload unchanged. *)
Theorem EncodeMessage_size (msgType : MessageType) (data : list byte) :
  (Z.of_nat (length data) > MaxMessageSize →
   ∃ err, EncodeMessage msgType data = inr err)
  ∧ (Z.of_nat (length data) ≤ MaxMessageSize →
     ∃ encoded,
       EncodeMessage msgType data = inl encoded
       ∧ length encoded = (8 + length data)%nat
       ∧ take 2 encoded = [ProtocolVersion; msgType]
       ∧ drop 8 encoded = data).
Proof.
  split.
  - intros Hbig. unfold EncodeMessage.
    destruct (Z.gtb_spec (Z.of_nat (length data)) MaxMessageSize); [|lia].
    eexists. reflexivity.
  - intros Hlen. exists (frame_layout msgType data).
    split; [by apply EncodeMessage_frame|]. repeat split.
Qed.

(** X5.  [WriteMessage] hands the whole frame, header and payload, to the
    writer in a single [Write] call and returns that call's error; for a
    payload longer than [MaxMessageSize] it returns an error and the writer
    is not called. *)
Theorem WriteMessage_single_write (writer : Writer) (msgType : MessageType)
    (data : list byte) :
  (Z.of_nat (length data) ≤ MaxMessageSize →
   writes (WriteMessage writer msgType data).1
   = writes writer ++ [frame_layout msgType data]
   ∧ (WriteMessage writer msgType data).2
     = write_fails writer (frame_layout msgType data))
  ∧ (Z.of_nat (length data) > MaxMessageSize →
     (WriteMessage writer msgType data).1 = writer
     ∧ ∃ err, (WriteMessage writer msgType data).2 = Some err).
Proof.
  unfold WriteMessage. split.
  - intros Hlen. rewrite EncodeMessage_frame by exact Hlen.
    split; reflexivity.
  - intros Hbig. unfold EncodeMessage.
    destruct (Z.gtb_spec (Z.of_nat (length data)) MaxMessageSize); [|lia].
    split; [reflexivity|]. eexists. reflexivity.
Qed.

End codec_frames.

(** ** The connection registry, continued *)

Section registry_calls.
Import golang models server scenario examples.

(** A port that is registered cannot be registered again. *)
Lemma Register_taken (now port : Z) (conn existing : Conn)
    (cm : ConnectionManager) :
  GetConnection port cm = Some existing →
  Register now port conn cm
  = (cm, Some ("port " +:+ pretty port +:+ " already registered")).
Proof. unfold GetConnection, Register. by intros ->. Qed.

(** X6.  Whatever the manager holds, once [Register] has been called for a
    port a second [Register] for that port is rejected with an error and
    changes nothing: the entry the port had after the first call stays. *)
Theorem Register_twice_rejected (now1 now2 port : Z) (conn1 conn2 : Conn)
    (cm : ConnectionManager) :
  Register now2 port conn2 (Register now1 port conn1 cm).1
  = ((Register now1 port conn1 cm).1,
     Some ("port " +:+ pretty port +:+ " already registered")).
Proof.
  destruct (GetConnection port cm) as [existing|] eqn:E.
  - rewrite (Register_taken now1 port conn1 existing cm E). cbn [fst].
    by apply (Register_taken now2 port conn2 existing).
  - apply (Register_taken now2 port conn2 conn1).
    unfold GetConnection, Register in *. rewrite E. cbn [fst connections].
    apply lookup_insert_eq.
Qed.



(** X8.  [Unregister] is idempotent, and on a port without entry it does
    nothing: no socket is closed. *)
Theorem Unregister_idempotent (port : Z) (cm : ConnectionManager) :
  Unregister port (Unregister port cm) = Unregister port cm
  ∧ (GetConnection port cm = None → Unregister port cm = cm).
Proof.
  split.
  - unfold Unregister at 1. fold (GetConnection port (Unregister port cm)).
    by rewrite Unregister_GetConnection.
  - unfold GetConnection, Unregister. by intros ->.
Qed.

(** Sending to a port without entry fails and changes nothing. *)
Lemma SendData_no_entry (write : Conn → list byte → error) (now port : Z)
    (data : list byte) (cm : ConnectionManager) :
  GetConnection port cm = None →
  SendData write now port data cm
  = (cm, Some ("no connection found for port " +:+ pretty port)).
Proof. unfold SendData. by intros ->. Qed.

(** X9.  Once a port is unregistered, sending to it fails, whatever the
    sockets would answer to a write, and changes nothing: no statistics
    are touched and no further socket is closed. *)
Theorem SendData_after_Unregister (write : Conn → list byte → error)
    (now port : Z) (data : list byte) (cm : ConnectionManager) :
  SendData write now port data (Unregister port cm)
  = (Unregister port cm,
     Some ("no connection found for port " +:+ pretty port)).
Proof. apply SendData_no_entry, Unregister_GetConnection. Qed.

(** X10.  A send whose write succeeds returns no error, keeps the entry and
    closes nothing; the entry's count of sent messages is one higher
    (within [int64]) and its last activity is the time of the call; its
    other statistics and the entries of the other ports are as before. *)
Theorem SendData_delivers (write : Conn → list byte → error) (now port : Z)
    (data : list byte) (cm : ConnectionManager) (conn : Conn) :
  GetConnection port cm = Some conn →
  write conn data = None →
  (SendData write now port data cm).2 = None
  ∧ GetConnection port (SendData write now port data cm).1 = Some conn
  ∧ closed (SendData write now port data cm).1 = closed cm
  ∧ GetConnectionInfo port (SendData write now port data cm).1
    = (λ info, ConnectionInfo.mk (ConnectionInfo.Port info)
                 (ConnectionInfo.RemoteAddr info)
                 (ConnectionInfo.ConnectedAt info) now
                 (int64 (ConnectionInfo.MessagesSent info + 1))
                 (ConnectionInfo.MessagesReceived info))
        <$> GetConnectionInfo port cm
  ∧ (∀ other, other ≠ port →
       GetConnection other (SendData write now port data cm).1
       = GetConnection other cm
       ∧ GetConnectionInfo other (SendData write now port data cm).1
         = GetConnectionInfo other cm).
Proof.
  intros Hconn Hwrite. unfold SendData. rewrite Hconn, Hwrite.
  unfold GetConnection, GetConnectionInfo in *.
  cbn [fst snd connections connInfo closed].
  split; [reflexivity|]. split; [exact Hconn|]. split; [reflexivity|].
  split.
  - rewrite lookup_alter, decide_True by reflexivity. reflexivity.
  - intros other Hne. split; [reflexivity|].
    rewrite lookup_alter, decide_False by congruence. reflexivity.
Qed.

Lemma SendData_delivers_witness :
  ConnectionInfo.MessagesSent
    <$> GetConnectionInfo 54321
          (SendData (λ _ _, None) 2000 54321 [x01] one_client).1
  = Some 1.
Proof.
  pose proof (SendData_delivers (λ _ _, None) 2000 54321 [x01] one_client
                client_54321 eq_refl eq_refl) as (_ & _ & _ & Hinfo & _).
  rewrite Hinfo. reflexivity.
Defined.

(** *** The sweep of stale connections *)

(** One pass of the loop body leaves the entries of the other ports
    alone. *)
Lemma cleanup_entry_other (now maxIdleTime : Z) (q : Z)
    (j : ConnectionInfo.t) (cm : ConnectionManager) (p : Z) :
  p ≠ q →
  connections (cleanup_entry now maxIdleTime (q, j) cm) !! p
  = connections cm !! p
  ∧ connInfo (cleanup_entry now maxIdleTime (q, j) cm) !! p
    = connInfo cm !! p.
Proof.
  intros Hne. unfold cleanup_entry.
  destruct (_ >? _); [|done].
  destruct (connections cm !! q); [|done].
  cbn [connections connInfo]. by rewrite !lookup_delete_ne.
Qed.

(** A socket that is closed stays in the record of closed sockets. *)
Lemma cleanup_entry_closed (now maxIdleTime : Z)
    (x : Z * ConnectionInfo.t) (cm : ConnectionManager) (c : Conn) :
  c ∈ closed cm → c ∈ closed (cleanup_entry now maxIdleTime x cm).
Proof.
  intros Hc. destruct x as [q j]. unfold cleanup_entry.
  destruct (_ >? _); [|done].
  destruct (connections cm !! q); [|done].
  cbn [closed]. by apply elem_of_cons; right.
Qed.

Lemma cleanup_fold_closed (now maxIdleTime : Z)
    (l : list (Z * ConnectionInfo.t)) (cm : ConnectionManager) (c : Conn) :
  c ∈ closed cm →
  c ∈ closed (foldr (cleanup_entry now maxIdleTime) cm l).
Proof.
  intros Hc. induction l as [|x l IH]; [done|].
  cbn [foldr]. by apply cleanup_entry_closed.
Qed.

Lemma cleanup_fold_other (now maxIdleTime : Z)
    (l : list (Z * ConnectionInfo.t)) (cm : ConnectionManager) (p : Z) :
  p ∉ l.*1 →
  connections (foldr (cleanup_entry now maxIdleTime) cm l) !! p
  = connections cm !! p
  ∧ connInfo (foldr (cleanup_entry now maxIdleTime) cm l) !! p
    = connInfo cm !! p.
Proof.
  induction l as [|[q j] l IH]; [done|].
  cbn [foldr fmap list_fmap fst]. intros Hp.
  apply not_elem_of_cons in Hp as [Hne Hp].
  destruct (cleanup_entry_other now maxIdleTime q j
              (foldr (cleanup_entry now maxIdleTime) cm l) p Hne) as [-> ->].
  by apply IH.
Qed.

(** The loop on a list of entries with distinct ports, seen from the port
    of one of them. *)
Lemma cleanup_fold_entry (now maxIdleTime : Z)
    (l : list (Z * ConnectionInfo.t)) (cm : ConnectionManager) (p : Z)
    (i : ConnectionInfo.t) :
  NoDup l.*1 →
  (p, i) ∈ l →
  let cm' := foldr (cleanup_entry now maxIdleTime) cm l in
  (time_Sub now (ConnectionInfo.LastActive i) > maxIdleTime →
   ∀ conn, connections cm !! p = Some conn →
           connections cm' !! p = None
           ∧ connInfo cm' !! p = None
           ∧ conn ∈ closed cm')
  ∧ (time_Sub now (ConnectionInfo.LastActive i) ≤ maxIdleTime →
     connections cm' !! p = connections cm !! p
     ∧ connInfo cm' !! p = connInfo cm !! p).
Proof.
  intros Hnd Hin cm'.
  apply list_elem_of_split in Hin as (l1 & l2 & ->).
  rewrite fmap_app, fmap_cons in Hnd. cbn [fst] in Hnd.
  apply NoDup_app in Hnd as (_ & Hdisj & Hnd2).
  apply NoDup_cons in Hnd2 as [Hp2 _].
  assert (Hp1 : p ∉ l1.*1).
  { intros Hp1. apply (Hdisj p Hp1). by apply elem_of_cons; left. }
  unfold cm'. rewrite foldr_app. cbn [foldr].
  set (cm2 := foldr (cleanup_entry now maxIdleTime) cm l2).
  destruct (cleanup_fold_other now maxIdleTime l2 cm p Hp2) as [H2c H2i].
  fold cm2 in H2c, H2i.
  destruct (cleanup_fold_other now maxIdleTime l1
              (cleanup_entry now maxIdleTime (p, i) cm2) p Hp1) as [-> ->].
  split.
  - intros Hstale conn Hconn. unfold cleanup_entry at 1 2.
    destruct (Z.gtb_spec (time_Sub now (ConnectionInfo.LastActive i))
                maxIdleTime); [|lia].
    rewrite H2c, Hconn. cbn [connections connInfo].
    split; [apply lookup_delete_eq|]. split; [apply lookup_delete_eq|].
    apply cleanup_fold_closed. unfold cleanup_entry.
    destruct (Z.gtb_spec (time_Sub now (ConnectionInfo.LastActive i))
                maxIdleTime); [|lia].
    rewrite H2c, Hconn. cbn [closed]. by apply elem_of_cons; left.
  - intros Hfresh. unfold cleanup_entry.
    destruct (Z.gtb_spec (time_Sub now (ConnectionInfo.LastActive i))
                maxIdleTime); [lia|].
    by rewrite H2c, H2i.
Qed.

(** X11.  The sweep: an entry (socket and statistics) idle for longer
    than [maxIdleTime] is removed from both maps and its socket is closed;
    an entry idle for at most [maxIdleTime] is kept as it is. *)
Theorem CleanupStaleConnections_sweeps (now maxIdleTime : Z)
    (cm : ConnectionManager) :
  ∀ port info conn,
    GetConnectionInfo port cm = Some info →
    GetConnection port cm = Some conn →
    (time_Sub now (ConnectionInfo.LastActive info) > maxIdleTime →
     GetConnection port (CleanupStaleConnections now maxIdleTime cm) = None
     ∧ GetConnectionInfo port (CleanupStaleConnections now maxIdleTime cm)
       = None
     ∧ conn ∈ closed (CleanupStaleConnections now maxIdleTime cm))
    ∧ (time_Sub now (ConnectionInfo.LastActive info) ≤ maxIdleTime →
       GetConnection port (CleanupStaleConnections now maxIdleTime cm)
       = Some conn
       ∧ GetConnectionInfo port (CleanupStaleConnections now maxIdleTime cm)
         = Some info).
Proof.
  intros port info conn Hinfo Hconn.
  unfold GetConnection, GetConnectionInfo, CleanupStaleConnections in *.
  destruct (cleanup_fold_entry now maxIdleTime (map_to_list (connInfo cm))
              cm port info (NoDup_fst_map_to_list _)
              ltac:(by apply elem_of_map_to_list)) as [Hstale Hfresh].
  split.
  - intros H. by apply Hstale.
  - intros H. destruct (Hfresh H) as [-> ->]. done.
Qed.

Lemma CleanupStaleConnections_sweeps_witness :
  GetConnection 54321
    (CleanupStaleConnections 400000000000 300000000000 one_client) = None
  ∧ client_54321
    ∈ closed (CleanupStaleConnections 400000000000 300000000000 one_client).
Proof.
  destruct (CleanupStaleConnections_sweeps 400000000000 300000000000
              one_client 54321 _ client_54321 eq_refl eq_refl)
    as [Hstale _].
  destruct (Hstale ltac:(vm_compute; reflexivity)) as (Hconn & _ & Hclosed).
  split; [exact Hconn | exact Hclosed].
Defined.

(** *** The two maps of the manager *)

Lemma registry_wf_lookup (cm : ConnectionManager) :
  registry_wf cm
  ↔ ∀ port, is_Some (connections cm !! port) ↔ is_Some (connInfo cm !! port).
Proof.
  unfold registry_wf. split.
  - intros Hdom port. by rewrite <- !elem_of_dom, Hdom.
  - intros Hiff. apply set_eq. intros port. by rewrite !elem_of_dom.
Qed.

Lemma Unregister_wf (port : Z) (cm : ConnectionManager) :
  registry_wf cm → registry_wf (Unregister port cm).
Proof.
  unfold registry_wf, Unregister. intros Hwf.
  destruct (connections cm !! port); [|exact Hwf].
  cbn [connections connInfo]. by rewrite !dom_delete_L, Hwf.
Qed.

Lemma CleanupStaleConnections_wf (now maxIdleTime : Z)
    (cm : ConnectionManager) :
  registry_wf cm → registry_wf (CleanupStaleConnections now maxIdleTime cm).
Proof.
  rewrite !registry_wf_lookup. intros Hwf port.
  unfold CleanupStaleConnections.
  destruct (connInfo cm !! port) as [info|] eqn:Hinfo.
  - destruct (proj2 (Hwf port) ltac:(by rewrite Hinfo)) as [conn Hconn].
    destruct (cleanup_fold_entry now maxIdleTime (map_to_list (connInfo cm))
                cm port info (NoDup_fst_map_to_list _)
                ltac:(by apply elem_of_map_to_list)) as [Hstale Hfresh].
    destruct (Z_gt_le_dec (time_Sub now (ConnectionInfo.LastActive info))
                maxIdleTime) as [Hgt|Hle].
    + destruct (Hstale Hgt conn Hconn) as (-> & -> & _). done.
    + destruct (Hfresh Hle) as [-> ->]. apply Hwf.
  - destruct (cleanup_fold_other now maxIdleTime (map_to_list (connInfo cm))
                cm port) as [-> ->]; [|apply Hwf].
    intros Hin. apply list_elem_of_fmap in Hin as ([q i] & -> & Hin).
    apply elem_of_map_to_list in Hin. cbn [fst] in Hinfo. congruence.
Qed.

Lemma run_call_wf (c : Call) (cm : ConnectionManager) :
  registry_wf cm → registry_wf (run_call c cm).
Proof.
  intros Hwf. destruct c as [now port conn|port|write now port data
                             |now port|now port| |now maxIdleTime];
    cbn [run_call].
  - unfold Register. destruct (connections cm !! port); [exact Hwf|].
    unfold registry_wf in *. cbn [fst connections connInfo].
    by rewrite !dom_insert_L, Hwf.
  - by apply Unregister_wf.
  - unfold SendData, GetConnection.
    destruct (connections cm !! port) as [conn|]; [|exact Hwf].
    assert (Hwf1 : registry_wf
                     (mkConnectionManager (connections cm)
                        (alter (λ info, ConnectionInfo.mk
                                  (ConnectionInfo.Port info)
                                  (ConnectionInfo.RemoteAddr info)
                                  (ConnectionInfo.ConnectedAt info) now
                                  (int64 (ConnectionInfo.MessagesSent info + 1))
                                  (ConnectionInfo.MessagesReceived info))
                           port (connInfo cm))
                        (closed cm))).
    { unfold registry_wf in *. cbn [connections connInfo].
      by rewrite dom_alter_L. }
    destruct (write conn data); cbn [fst]; [by apply Unregister_wf|exact Hwf1].
  - unfold registry_wf, UpdateLastActive in *. cbn [connections connInfo].
    by rewrite dom_alter_L.
  - unfold registry_wf, IncrementReceived in *. cbn [connections connInfo].
    by rewrite dom_alter_L.
  - unfold registry_wf, CloseAll. cbn [connections connInfo].
    by rewrite !dom_empty_L.
  - by apply CleanupStaleConnections_wf.
Qed.

(** X12.  From the empty manager, after any sequence of [Register],
    [Unregister], [SendData], [UpdateLastActive], [IncrementReceived],
    [CloseAll] and [CleanupStaleConnections] calls, whatever their
    arguments and the sockets' answers, a port has a socket exactly when
    it has statistics, and [Count] is the number of ports that
    [GetAllConnections] lists. *)
Theorem registry_maps_agree (cs : list Call) :
  registry_wf (run_calls cs NewConnectionManager)
  ∧ (∀ port,
       is_Some (GetConnection port (run_calls cs NewConnectionManager))
       ↔ is_Some (GetConnectionInfo port (run_calls cs NewConnectionManager)))
  ∧ Count (run_calls cs NewConnectionManager)
    = Z.of_nat (length (GetAllConnections (run_calls cs NewConnectionManager))).
Proof.
  assert (Hwf : registry_wf (run_calls cs NewConnectionManager)).
  { unfold run_calls.
    assert (H0 : registry_wf NewConnectionManager) by reflexivity.
    revert H0. generalize NewConnectionManager.
    induction cs as [|c cs IH]; intros cm Hcm; [exact Hcm|].
    cbn [foldl]. by apply IH, run_call_wf. }
  split; [exact Hwf|]. split.
  - by apply registry_wf_lookup.
  - unfold Count, GetAllConnections.
    by rewrite length_fmap, length_map_to_list.
Qed.

End registry_calls.

(** ** The repository, continued *)

Section repository_statements.
Import golang models database scenario examples.

(** *** The claim query *)

(** X13.  With a limit that covers the table, [FetchPendingRequests]
    returns exactly the rows of the table that are [pending] and not locked
    by another transaction: every such row, and no other. *)
Theorem FetchPendingRequests_covering_limit (locked : gset Z) (limit : Z)
    (db : DB) :
  Z.of_nat (size (unsend_data db)) ≤ limit →
  ∃ rows,
    FetchPendingRequests None locked limit db = inl rows
    ∧ ∀ r, r ∈ rows
           ↔ (∃ k, unsend_data db !! k = Some r)
             ∧ UnsendData.Status r = StatusPending
             ∧ UnsendData.ID r ∉ locked.
Proof.
  intros Hlimit. eexists. split; [reflexivity|]. intros r.
  destruct (FetchPendingRequests_eligible locked limit db _ eq_refl)
    as [Hsound Hcomplete].
  split; [apply Hsound|].
  intros ([k Hk] & Hs & Hl). by apply (Hcomplete Hlimit k).
Qed.

Lemma FetchPendingRequests_covering_limit_witness :
  ∃ rows,
    FetchPendingRequests None ∅ 10 two_rows = inl rows
    ∧ ∀ r, r ∈ rows
           ↔ (∃ k, unsend_data two_rows !! k = Some r)
             ∧ UnsendData.Status r = StatusPending
             ∧ UnsendData.ID r ∉ (∅ : gset Z).
Proof.
  apply (FetchPendingRequests_covering_limit ∅ 10 two_rows).
  vm_compute. discriminate.
Defined.

Lemma insert_by_created_at_sorted (r : UnsendData.t)
    (l : list UnsendData.t) :
  StronglySorted (λ a b, UnsendData.CreatedAt a ≤ UnsendData.CreatedAt b) l →
  StronglySorted (λ a b, UnsendData.CreatedAt a ≤ UnsendData.CreatedAt b)
    (insert_by_created_at r l).
Proof.
  induction l as [|x l IH]; intros Hl; cbn [insert_by_created_at].
  - repeat constructor.
  - apply StronglySorted_inv in Hl as [Hl Hx].
    destruct (Z.leb_spec (UnsendData.CreatedAt r) (UnsendData.CreatedAt x)).
    + constructor; [by constructor|]. constructor; [done|].
      eapply Forall_impl; [exact Hx|]. cbn. intros; lia.
    + constructor; [by apply IH|].
      apply Forall_forall. intros y Hy.
      apply elem_of_insert_by_created_at in Hy as [->|Hy]; [lia|].
      by eapply Forall_forall in Hx.
Qed.

Lemma order_by_created_at_sorted (l : list UnsendData.t) :
  StronglySorted (λ a b, UnsendData.CreatedAt a ≤ UnsendData.CreatedAt b)
    (order_by_created_at l).
Proof.
  unfold order_by_created_at. induction l as [|x l IH]; cbn [foldr].
  - constructor.
  - by apply insert_by_created_at_sorted.
Qed.

Lemma StronglySorted_take {A} (R : A → A → Prop) (n : nat) (l : list A) :
  StronglySorted R l → StronglySorted R (take n l).
Proof.
  intros Hl. revert n. induction Hl as [|x l Hl IH Hx]; intros [|n];
    cbn [take]; try constructor; [apply IH|].
  apply Forall_forall. intros y Hy.
  eapply Forall_forall in Hx; [exact Hx|]. by eapply subseteq_take.
Qed.

(** No lock held elsewhere: the filter on locks keeps every row. *)
Lemma filter_unlocked_none (locked : gset Z) (l : list UnsendData.t) :
  locked = ∅ → filter (λ r, UnsendData.ID r ∉ locked) l = l.
Proof.
  intros Hnone. induction l as [|x l IH]; [reflexivity|].
  rewrite filter_cons_True by (rewrite Hnone; set_solver). by rewrite IH.
Qed.

(** X14.  A fetch that the driver answers returns its rows oldest first
    ([created_at] never decreases along the list) and never more than
    [limit] of them; with no row locked elsewhere their number is the
    smaller of [limit] (0 when negative) and what [GetPendingCount]
    reports. *)
Theorem FetchPendingRequests_oldest_first (locked : gset Z) (limit : Z)
    (db : DB) :
  ∃ rows,
    FetchPendingRequests None locked limit db = inl rows
    ∧ StronglySorted
        (λ a b, UnsendData.CreatedAt a ≤ UnsendData.CreatedAt b) rows
    ∧ Z.of_nat (length rows) ≤ Z.max limit 0
    ∧ (locked = ∅ →
       Z.of_nat (length rows)
       = Z.min (Z.max limit 0) (GetPendingCount None db).1).
Proof.
  exists (take (Z.to_nat limit)
            (order_by_created_at
               (filter where_status_pending
                  (filter (λ r, UnsendData.ID r ∉ locked)
                     (map_to_list (unsend_data db)).*2)))).
  split; [reflexivity|]. split; [|split].
  - apply StronglySorted_take, order_by_created_at_sorted.
  - rewrite length_take. lia.
  - intros Hnone. rewrite length_take, length_order_by_created_at.
    rewrite filter_unlocked_none by exact Hnone.
    cbn [GetPendingCount fst]. lia.
Qed.

(** *** Writes on the staging table *)

(** X15.  [DeleteProcessedRequest], when the statement runs and the driver
    reports the affected rows: on an id that has no row it returns an error
    and the tables are as before; on an id that has one it returns no error,
    the row is gone, and the other rows and the response table are as
    before. *)
Theorem DeleteProcessedRequest_contract (requestID : Z) (db : DB) :
  (unsend_data db !! requestID = None →
   DeleteProcessedRequest None None requestID db
   = (db, Some ("no request found with id " +:+ pretty requestID)))
  ∧ (∀ r, unsend_data db !! requestID = Some r →
          (DeleteProcessedRequest None None requestID db).2 = None
          ∧ unsend_data (DeleteProcessedRequest None None requestID db).1
              !! requestID = None
          ∧ (∀ id, id ≠ requestID →
               unsend_data (DeleteProcessedRequest None None requestID db).1
                 !! id = unsend_data db !! id)
          ∧ api_responses (DeleteProcessedRequest None None requestID db).1
            = api_responses db).
Proof.
  unfold DeleteProcessedRequest. split.
  - intros Hnone. rewrite Hnone. cbn.
    rewrite delete_id by exact Hnone. by destruct db.
  - intros r Hr. rewrite Hr. cbn.
    split; [reflexivity|]. split; [apply lookup_delete_eq|].
    split; [|reflexivity]. intros id Hne. by apply lookup_delete_ne.
Qed.


(** X17.  On a table where every row is stored under its own id, a row
    whose status has just been written to anything but [pending] (as
    [MarkAsSending], [MarkAsFailed] and [MarkAsComplete] do) is not among
    the rows the next fetch returns, whatever the limit and the locks: a
    row the failure handler marked [failed] is not claimed again. *)
Theorem marked_row_not_fetched (now requestID : Z) (status : RequestStatus)
    (errorMsg : option string) (locked : gset Z) (limit : Z) (db : DB) :
  keyed_by_id db →
  status ≠ StatusPending →
  ∃ rows,
    FetchPendingRequests None locked limit
      (UpdateRequestStatus None now requestID status errorMsg db).1
    = inl rows
    ∧ ∀ r, r ∈ rows → UnsendData.ID r ≠ requestID.
Proof.
  intros Hkey Hstatus. eexists. split; [reflexivity|]. intros r Hr.
  destruct (FetchPendingRequests_eligible locked limit
              (UpdateRequestStatus None now requestID status errorMsg db).1
              _ eq_refl) as [Hsound _].
  destruct (Hsound r Hr) as ([k Hk] & Hpending & _).
  rewrite UpdateRequestStatus_row in Hk.
  destruct (decide (requestID = k)) as [->|Hne].
  - destruct (unsend_data db !! k); [|discriminate].
    injection Hk as <-. cbn in Hpending. congruence.
  - apply Hkey in Hk. congruence.
Qed.

Lemma two_rows_keyed_by_id : keyed_by_id two_rows.
Proof.
  intros k r. unfold two_rows. cbn [unsend_data].
  rewrite lookup_insert. case_decide as H7; [by intros [= <-]|].
  rewrite lookup_singleton. case_decide as H42; [by intros [= <-]|].
  discriminate.
Defined.

Lemma marked_row_not_fetched_witness :
  ∃ rows,
    FetchPendingRequests None ∅ 10
      (UpdateRequestStatus None 5000 42 StatusFailed (Some "boom") two_rows).1
    = inl rows
    ∧ ∀ r, r ∈ rows → UnsendData.ID r ≠ 42.
Proof.
  apply (marked_row_not_fetched 5000 42 StatusFailed (Some "boom") ∅ 10
           two_rows two_rows_keyed_by_id).
  discriminate.
Defined.

(** X18.  [InsertRequest] with an id the table does not hold yet: it
    returns that id and no error; the new row is [pending] with a retry
    count of zero, no error text and both times at the time of the call;
    [GetPendingCount] is one higher; the other rows and the response table
    are as before. *)
Theorem InsertRequest_stages_pending (now assigned clientPort : Z)
    (binaryData : list byte) (db : DB) :
  unsend_data db !! assigned = None →
  (InsertRequest None now assigned clientPort binaryData db).2
  = (assigned, None)
  ∧ unsend_data (InsertRequest None now assigned clientPort binaryData db).1
      !! assigned
    = Some (UnsendData.mk assigned clientPort binaryData StatusPending
              now now 0 None)
  ∧ (GetPendingCount None
       (InsertRequest None now assigned clientPort binaryData db).1).1
    = (GetPendingCount None db).1 + 1
  ∧ (∀ id, id ≠ assigned →
       unsend_data (InsertRequest None now assigned clientPort binaryData db).1
         !! id = unsend_data db !! id)
  ∧ api_responses (InsertRequest None now assigned clientPort binaryData db).1
    = api_responses db.
Proof.
  intros Hfresh. cbn [InsertRequest fst snd unsend_data api_responses].
  split; [reflexivity|]. split; [apply lookup_insert_eq|].
  split; [|split; [|reflexivity]].
  - cbn [GetPendingCount fst unsend_data].
    rewrite (map_to_list_insert _ _ _ Hfresh). cbn [fmap list_fmap snd].
    rewrite filter_cons_True by reflexivity. cbn [length]. lia.
  - intros id Hne. by apply lookup_insert_ne.
Qed.

Lemma InsertRequest_stages_pending_witness :
  (GetPendingCount None
     (InsertRequest None 3000 43 54321 [x01; x02; x03; x04] two_rows).1).1
  = 2.
Proof.
  pose proof (InsertRequest_stages_pending 3000 43 54321 [x01; x02; x03; x04]
                two_rows eq_refl) as (_ & _ & Hcount & _).
  rewrite Hcount. reflexivity.
Defined.

End repository_statements.

(** ** The upstream client, continued *)

Section client_retries.
Import golang models libs config api scenario examples.
Context `{Encoding}.

(** The retries from attempt [a ≥ 1] on: [k] failures, then a success. *)
Lemma retry_loop_success (cfg : APIConfig) (up : Upstream)
    (response : APIResponsePayload.t) (k : nat) :
  ∀ (n : nat) (a : Z) (lastErr : error),
    1 ≤ a →
    (k < n)%nat →
    (∀ i, a ≤ i < a + Z.of_nat k → attempt_fails up i) →
    sendRequestOnce (exchange up (a + Z.of_nat k)) = inl response →
    (∀ i, a ≤ i ≤ a + Z.of_nat k → ctx_ends up i = None) →
    (∀ i, a ≤ i ≤ a + Z.of_nat k → - 2 ^ 63 ≤ RetryDelay cfg * i < 2 ^ 63) →
    retry_loop cfg up n a lastErr
    = (flat_map (λ i, [Wait (RetryDelay cfg * i); Attempt i])
         (seqZ a (Z.of_nat (S k))),
       inl response).
Proof.
  induction k as [|k IH]; intros n a lastErr Ha Hn Hfail Hok Hctx Hrange;
    (destruct n as [|n]; [lia|]); cbn [retry_loop];
    rewrite int64_small by (apply Hrange; lia);
    (destruct (Z.gtb_spec a 0) as [_|]; [|lia]);
    rewrite Hctx by lia.
  - replace (a + Z.of_nat 0) with a in Hok by lia. rewrite Hok.
    rewrite seqZ_cons by lia. rewrite seqZ_nil by lia. reflexivity.
  - destruct (Hfail a ltac:(lia)) as [e0 He0]. rewrite He0.
    rewrite (IH n (a + 1) (Some e0)); try lia.
    + rewrite (seqZ_cons a) by lia.
      replace (Z.pred (Z.of_nat (S (S k)))) with (Z.of_nat (S k)) by lia.
      reflexivity.
    + intros i Hi. apply Hfail. lia.
    + replace (a + 1 + Z.of_nat k) with (a + Z.of_nat (S k)) by lia.
      exact Hok.
    + intros i Hi. apply Hctx. lia.
    + intros i Hi. apply Hrange. lia.
Qed.

(** X19.  First success wins: when attempts [0 .. j-1] fail and attempt
    [j ≤ MaxRetries] succeeds (the job's context outliving the waits),
    [SendRequest] returns the response of attempt [j]; it has made exactly
    the attempts [0 .. j], with a wait of [RetryDelay × k] before each
    retry [k], and makes no attempt after the success. *)
Theorem SendRequest_first_success (cfg : APIConfig) (up : Upstream)
    (request : APIRequest.t) (requestBody : list byte) (j : Z)
    (response : APIResponsePayload.t) :
  json_Marshal_request request = inl requestBody →
  0 ≤ j ≤ MaxRetries cfg →
  0 ≤ RetryDelay cfg →
  RetryDelay cfg * MaxRetries cfg < 2 ^ 63 →
  (∀ i, 0 ≤ i < j → attempt_fails up i) →
  sendRequestOnce (exchange up j) = inl response →
  (∀ i, 1 ≤ i ≤ j → ctx_ends up i = None) →
  SendRequest cfg up request
  = (linear_backoff (RetryDelay cfg) j, inl response).
Proof.
  intros Hmarshal Hj Hdelay Hfit Hfail Hok Hctx.
  unfold SendRequest, linear_backoff. rewrite Hmarshal.
  replace (Z.to_nat (MaxRetries cfg + 1)) with (S (Z.to_nat (MaxRetries cfg)))
    by lia.
  cbn [retry_loop]. change (0 >? 0) with false. cbv iota.
  destruct (Z.eq_dec j 0) as [->|Hpos].
  - rewrite Hok. rewrite seqZ_nil by lia. reflexivity.
  - destruct (Hfail 0 ltac:(lia)) as [e0 He0]. rewrite He0.
    change (0 + 1) with 1.
    rewrite (retry_loop_success cfg up response (Z.to_nat (j - 1))
               (Z.to_nat (MaxRetries cfg)) 1 (Some e0)); try lia.
    + replace (Z.of_nat (S (Z.to_nat (j - 1)))) with j by lia. reflexivity.
    + intros i Hi. apply Hfail. lia.
    + replace (1 + Z.of_nat (Z.to_nat (j - 1))) with j by lia. exact Hok.
    + intros i Hi. apply Hctx. lia.
    + intros i Hi. nia.
Qed.

(** The retries from attempt [a ≥ 1] on: [k] failures, then the context
    ends during the next wait. *)
Lemma retry_loop_cancelled (cfg : APIConfig) (up : Upstream)
    (cancel : string) (k : nat) :
  ∀ (n : nat) (a : Z) (lastErr : error),
    1 ≤ a →
    (k < n)%nat →
    (∀ i, a ≤ i < a + Z.of_nat k → attempt_fails up i) →
    (∀ i, a ≤ i < a + Z.of_nat k → ctx_ends up i = None) →
    ctx_ends up (a + Z.of_nat k) = Some cancel →
    (∀ i, a ≤ i ≤ a + Z.of_nat k → - 2 ^ 63 ≤ RetryDelay cfg * i < 2 ^ 63) →
    retry_loop cfg up n a lastErr
    = (flat_map (λ i, [Wait (RetryDelay cfg * i); Attempt i])
         (seqZ a (Z.of_nat k))
         ++ [Wait (RetryDelay cfg * (a + Z.of_nat k))],
       inr cancel).
Proof.
  induction k as [|k IH]; intros n a lastErr Ha Hn Hfail Hctx Hend Hrange;
    (destruct n as [|n]; [lia|]); cbn [retry_loop];
    rewrite int64_small by (apply Hrange; lia);
    (destruct (Z.gtb_spec a 0) as [_|]; [|lia]).
  - replace (a + Z.of_nat 0) with a in * by lia. rewrite Hend.
    rewrite seqZ_nil by lia. reflexivity.
  - rewrite Hctx by lia.
    destruct (Hfail a ltac:(lia)) as [e0 He0]. rewrite He0.
    rewrite (IH n (a + 1) (Some e0)); try lia.
    + rewrite (seqZ_cons a) by lia.
      replace (Z.pred (Z.of_nat (S k))) with (Z.of_nat k) by lia.
      replace (a + 1 + Z.of_nat k) with (a + Z.of_nat (S k)) by lia.
      reflexivity.
    + intros i Hi. apply Hfail. lia.
    + intros i Hi. apply Hctx. lia.
    + replace (a + 1 + Z.of_nat k) with (a + Z.of_nat (S k)) by lia.
      exact Hend.
    + intros i Hi. apply Hrange. lia.
Qed.

(** X20.  Cancellation during a wait: when attempts [0 .. k-1] fail and the
    job's context ends during the wait before retry [k], [SendRequest]
    returns the context's error at once; attempt [k] and the later ones
    are never made, and the errors of the attempts made are dropped. *)
Theorem SendRequest_cancelled_in_wait (cfg : APIConfig) (up : Upstream)
    (request : APIRequest.t) (requestBody : list byte) (k : Z)
    (cancel : string) :
  json_Marshal_request request = inl requestBody →
  1 ≤ k ≤ MaxRetries cfg →
  0 ≤ RetryDelay cfg →
  RetryDelay cfg * MaxRetries cfg < 2 ^ 63 →
  (∀ i, 0 ≤ i < k → attempt_fails up i) →
  (∀ i, 1 ≤ i < k → ctx_ends up i = None) →
  ctx_ends up k = Some cancel →
  SendRequest cfg up request
  = (linear_backoff (RetryDelay cfg) (k - 1) ++ [Wait (RetryDelay cfg * k)],
     inr cancel).
Proof.
  intros Hmarshal Hk Hdelay Hfit Hfail Hctx Hend.
  unfold SendRequest, linear_backoff. rewrite Hmarshal.
  replace (Z.to_nat (MaxRetries cfg + 1)) with (S (Z.to_nat (MaxRetries cfg)))
    by lia.
  cbn [retry_loop]. change (0 >? 0) with false. cbv iota.
  destruct (Hfail 0 ltac:(lia)) as [e0 He0]. rewrite He0.
  change (0 + 1) with 1.
  rewrite (retry_loop_cancelled cfg up cancel (Z.to_nat (k - 1))
             (Z.to_nat (MaxRetries cfg)) 1 (Some e0)); try lia.
  - replace (Z.of_nat (Z.to_nat (k - 1))) with (k - 1) by lia.
    replace (1 + (k - 1)) with k by lia. reflexivity.
  - intros i Hi. apply Hfail. lia.
  - intros i Hi. apply Hctx. lia.
  - replace (1 + Z.of_nat (Z.to_nat (k - 1))) with k by lia. exact Hend.
  - intros i Hi. nia.
Qed.

Lemma retry_loop_attempts (cfg : APIConfig) (up : Upstream) (n : nat) :
  ∀ (a : Z) (lastErr : error),
    (length (List.filter is_attempt (retry_loop cfg up n a lastErr).1)
     ≤ n)%nat.
Proof.
  induction n as [|n IH]; intros a lastErr; cbn [retry_loop]; [cbn; lia|].
  destruct (a >? 0); [destruct (ctx_ends up a)|]; cbn [fst app List.filter
    is_attempt length]; try lia.
  all: destruct (sendRequestOnce (exchange up a)) as [r|e];
    cbn [fst app List.filter is_attempt length]; try lia.
  all: specialize (IH (a + 1) (Some e)).
  all: destruct (retry_loop cfg up n (a + 1) (Some e)) as [evs r'].
  all: cbn [fst app List.filter is_attempt length] in *; lia.
Qed.

(** X21.  Whatever the upstream does, [SendRequest] makes at most
    [MaxRetries + 1] HTTP exchanges; with a negative [MaxRetries] it makes
    none and returns an error; and when the request does not marshal it
    returns an error without any exchange or wait. *)
Theorem SendRequest_attempts_bounded (cfg : APIConfig) (up : Upstream)
    (request : APIRequest.t) :
  (length (List.filter is_attempt (SendRequest cfg up request).1)
   ≤ Z.to_nat (MaxRetries cfg + 1))%nat
  ∧ (MaxRetries cfg < 0 →
     (SendRequest cfg up request).1 = []
     ∧ ∃ e, (SendRequest cfg up request).2 = inr e)
  ∧ (∀ e, json_Marshal_request request = inr e →
          SendRequest cfg up request
          = ([], inr ("failed to marshal request: " +:+ e))).
Proof.
  unfold SendRequest. split; [|split].
  - destruct (json_Marshal_request request); [|cbn; lia].
    apply retry_loop_attempts.
  - intros Hneg.
    replace (Z.to_nat (MaxRetries cfg + 1)) with 0%nat by lia.
    destruct (json_Marshal_request request); cbn; eauto.
  - by intros e ->.
Qed.

End client_retries.

Section client_retries_run.
Import golang models libs config api scenario examples.

Lemma SendRequest_first_success_witness :
  @SendRequest scenario_encoding Default_API upstream_recovers
    (APIRequest.mk "42" "2026-01-01T00:00:00Z" 54321 None)
  = ([Attempt 0; Wait 1000000000; Attempt 1; Wait 2000000000; Attempt 2],
     inl reply_42).
Proof.
  apply (@SendRequest_first_success scenario_encoding Default_API
           upstream_recovers _ [x7b; x7d] 2 reply_42 eq_refl).
  - vm_compute. split; discriminate.
  - discriminate.
  - reflexivity.
  - intros i Hi. unfold attempt_fails, upstream_recovers. cbn [exchange].
    destruct (Z.ltb_spec i 2); [|lia]. eexists. reflexivity.
  - reflexivity.
  - reflexivity.
Defined.

Lemma SendRequest_cancelled_in_wait_witness :
  @SendRequest scenario_encoding Default_API upstream_deadline
    (APIRequest.mk "42" "2026-01-01T00:00:00Z" 54321 None)
  = ([Attempt 0; Wait 1000000000; Attempt 1; Wait 2000000000],
     inr "context deadline exceeded").
Proof.
  apply (@SendRequest_cancelled_in_wait scenario_encoding Default_API
           upstream_deadline _ [x7b; x7d] 2 "context deadline exceeded"
           eq_refl).
  - vm_compute. split; discriminate.
  - discriminate.
  - reflexivity.
  - intros i Hi. eexists. reflexivity.
  - intros i Hi. unfold upstream_deadline. cbn [ctx_ends].
    destruct (Z.eqb_spec i 2); [lia|reflexivity].
  - reflexivity.
Defined.

End client_retries_run.

(** ** The transformer *)

Section transformer_conversions.
Import golang models libs transformer.
Context `{Encoding}.



(** X24.  The JSON fallback of [APIResponseToBinary]: for a reply without
    a [binary_data] text in its data object, the result is the marshalled
    reply behind a four-byte prefix, and the prefix read as a big-endian
    word is the number of bytes that follow. *)
Theorem APIResponseToBinary_length_prefix (response : APIResponsePayload.t)
    (jsonData : list byte) :
  (∀ data text, APIResponsePayload.Data response = Some data →
                data !! "binary_data" ≠ Some (JString text)) →
  json_Marshal_payload response = inl jsonData →
  Z.of_nat (length jsonData) < 2 ^ 32 →
  ∃ b0 b1 b2 b3,
    APIResponseToBinary (Some response)
    = inl (b0 :: b1 :: b2 :: b3 :: jsonData)
    ∧ Uint32 b0 b1 b2 b3 = Z.of_nat (length jsonData).
Proof.
  intros Hnotext Hmarshal Hfit.
  set (n := Z.of_nat (length jsonData)) in *.
  exists (byte_of_Z (Z.shiftr n 24)), (byte_of_Z (Z.shiftr n 16)),
    (byte_of_Z (Z.shiftr n 8)), (byte_of_Z n).
  split; [|apply Uint32_PutUint32; lia].
  assert (Hfallback :
    (match json_Marshal_payload response with
     | inr err => inr ("failed to marshal response to JSON: " +:+ err)
     | inl jsonData0 =>
         inl (copy_at 4 jsonData0
                (PutUint32_at 0 (uint32 (Z.of_nat (length jsonData0)))
                   (make (4 + Z.of_nat (length jsonData0)))))
     end : list byte + string)
    = inl (byte_of_Z (Z.shiftr n 24) :: byte_of_Z (Z.shiftr n 16)
             :: byte_of_Z (Z.shiftr n 8) :: byte_of_Z n :: jsonData)).
  { rewrite Hmarshal. f_equal. fold n.
    unfold uint32. rewrite Z.mod_small by lia.
    unfold make, PutUint32_at.
    replace (Z.to_nat (4 + n)) with (4 + length jsonData)%nat by lia.
    change (replicate (4 + length jsonData) x00)
      with (x00 :: x00 :: x00 :: x00 :: replicate (length jsonData) x00).
    cbn [list_insert insert Nat.add].
    unfold copy_at. cbn [take drop length Nat.add Nat.sub app].
    rewrite length_replicate, Nat.sub_0_r, firstn_all.
    rewrite drop_ge by (rewrite length_replicate; lia).
    by rewrite app_nil_r. }
  unfold APIResponseToBinary, encodeToBinary.
  destruct (APIResponsePayload.Data response) as [data|] eqn:Hdata.
  - destruct (data !! "binary_data") as [[| | |text| |]|] eqn:Htext;
      try (by rewrite Hfallback).
    by destruct (Hnotext data text).
  - by rewrite Hfallback.
Qed.

End transformer_conversions.

Section transformer_conversions_run.
Import golang models libs transformer scenario examples.


Lemma APIResponseToBinary_length_prefix_witness :
  ∃ b0 b1 b2 b3,
    @APIResponseToBinary scenario_encoding (Some reply_42)
    = inl (b0 :: b1 :: b2 :: b3 :: [x7b; x7d])
    ∧ Uint32 b0 b1 b2 b3 = Z.of_nat (length [x7b; x7d]).
Proof.
  apply (@APIResponseToBinary_length_prefix scenario_encoding reply_42
           [x7b; x7d]).
  - intros data text. discriminate.
  - reflexivity.
  - reflexivity.
Defined.

End transformer_conversions_run.

(** ** The processor, continued *)

Section processor_frame.
Import golang models libs config database server api worker.
Context `{Encoding}.

Lemma UpdateRequestStatus_frame (fail : error) (now requestID : Z)
    (status : RequestStatus) (errorMsg : option string) (d : DB) :
  (∀ id, id ≠ requestID →
     unsend_data (UpdateRequestStatus fail now requestID status errorMsg d).1
       !! id = unsend_data d !! id)
  ∧ api_responses (UpdateRequestStatus fail now requestID status errorMsg d).1
    = api_responses d.
Proof.
  destruct fail; [done|]. split; [|done]. intros id Hne.
  rewrite UpdateRequestStatus_row, decide_False by congruence. done.
Qed.

Lemma IncrementRetryCount_frame (fail : error) (now requestID : Z) (d : DB) :
  (∀ id, id ≠ requestID →
     unsend_data (IncrementRetryCount fail now requestID d).1 !! id
     = unsend_data d !! id)
  ∧ api_responses (IncrementRetryCount fail now requestID d).1
    = api_responses d.
Proof.
  destruct fail; [done|]. split; [|done]. intros id Hne.
  rewrite IncrementRetryCount_row, decide_False by congruence. done.
Qed.

Lemma DeleteProcessedRequest_frame (fail rows_fail : error) (requestID : Z)
    (d : DB) :
  (∀ id, id ≠ requestID →
     unsend_data (DeleteProcessedRequest fail rows_fail requestID d).1 !! id
     = unsend_data d !! id)
  ∧ api_responses (DeleteProcessedRequest fail rows_fail requestID d).1
    = api_responses d.
Proof.
  unfold DeleteProcessedRequest. destruct fail; [done|].
  destruct rows_fail; [|destruct (_ =? 0)]; cbn [fst unsend_data api_responses];
    (split; [|done]); intros id Hne; by apply lookup_delete_ne.
Qed.

Lemma InsertAPIResponse_frame (fail : error) (response : APIResponse.t)
    (d : DB) :
  unsend_data (InsertAPIResponse fail response d).1 = unsend_data d
  ∧ ∃ added, api_responses (InsertAPIResponse fail response d).1
             = api_responses d ++ added
             ∧ (added = [] ∨ added = [response]).
Proof.
  destruct fail; cbn [InsertAPIResponse fst unsend_data api_responses].
  - split; [done|]. exists []. by rewrite app_nil_r; auto.
  - split; [done|]. exists [response]. auto.
Qed.

(** Whatever [SendData] does, it does to the entry of its port. *)
Lemma SendData_other (write : Conn → list byte → error) (now port : Z)
    (data : list byte) (cm : ConnectionManager) (other : Z) :
  other ≠ port →
  GetConnection other (SendData write now port data cm).1
  = GetConnection other cm
  ∧ GetConnectionInfo other (SendData write now port data cm).1
    = GetConnectionInfo other cm.
Proof.
  intros Hne. unfold SendData, GetConnection, GetConnectionInfo.
  destruct (connections cm !! port) as [conn|] eqn:Hconn; [|done].
  destruct (write conn data); cbn [fst].
  - unfold Unregister. cbn [connections connInfo]. rewrite Hconn.
    cbn [connections connInfo].
    rewrite !lookup_delete_ne, lookup_alter, decide_False by congruence. done.
  - cbn [connections connInfo].
    rewrite lookup_alter, decide_False by congruence. done.
Qed.

Lemma sendToClient_other (env : Env) (clientPort : Z) (data : list byte)
    (cm : ConnectionManager) (other : Z) :
  other ≠ clientPort →
  GetConnection other (sendToClient env clientPort data cm).1
  = GetConnection other cm
  ∧ GetConnectionInfo other (sendToClient env clientPort data cm).1
    = GetConnectionInfo other cm.
Proof.
  intros Hne. unfold sendToClient.
  destruct (protocol.EncodeMessage _ data) as [message|]; [|done].
  pose proof (SendData_other (conn_Write env) (time_Now env AtSendData)
                clientPort message cm other Hne) as Hsend.
  by destruct (SendData _ _ clientPort message cm) as [cm' [e|]].
Qed.

Lemma touches_world (request : UnsendData.t) (w : World) (d : DB)
    (cm : ConnectionManager) (l : list Event) (added : list APIResponse.t) :
  (∀ id, id ≠ UnsendData.ID request →
         unsend_data d !! id = unsend_data (db w) !! id) →
  api_responses d = api_responses (db w) ++ added →
  (∀ port, port ≠ UnsendData.ClientPort request →
     GetConnection port cm = GetConnection port (connMgr w)
     ∧ GetConnectionInfo port cm = GetConnectionInfo port (connMgr w)) →
  touches request w (mkWorld d cm l) added.
Proof. intros Hrows Hapi Hcm. by split; [|split]. Qed.

Lemma handleError_touches (env : Env) (request : UnsendData.t) (msg : string)
    (w w0 : World) (added : list APIResponse.t) :
  touches request w w0 added →
  touches request w (handleError env (UnsendData.ID request) msg w0) added.
Proof.
  intros (Hrows & Hapi & Hcm). unfold handleError, MarkAsFailed.
  destruct (UpdateRequestStatus_frame (driver env AtMarkAsFailed)
              (time_Now env AtMarkAsFailed) (UnsendData.ID request)
              StatusFailed (Some msg) (db w0)) as [Hr1 Ha1].
  destruct (UpdateRequestStatus _ _ _ StatusFailed _ (db w0)) as [db1 e1].
  cbn [fst] in Hr1, Ha1.
  destruct (IncrementRetryCount_frame (driver env AtIncrementRetryCount)
              (time_Now env AtIncrementRetryCount) (UnsendData.ID request)
              db1) as [Hr2 Ha2].
  destruct (IncrementRetryCount _ _ _ db1) as [db2 e2].
  cbn [fst] in Hr2, Ha2.
  apply touches_world.
  - intros id Hne. rewrite Hr2, Hr1 by exact Hne. by apply Hrows.
  - by rewrite Ha2, Ha1.
  - exact Hcm.
Qed.

(** A run of [Process] touches the row of its request, the registry entry
    of its client port, and adds at most one response record, for its
    request. *)
Lemma Process_touches (cfg : APIConfig) (env : Env) (request : UnsendData.t)
    (w : World) :
  ∃ added,
    touches request w (Process cfg env request w).1 added
    ∧ (length added ≤ 1)%nat
    ∧ Forall (λ a, APIResponse.RequestID a = UnsendData.ID request) added.
Proof.
  assert (Hcm0 : ∀ port, port ≠ UnsendData.ClientPort request →
            GetConnection port (connMgr w) = GetConnection port (connMgr w)
            ∧ GetConnectionInfo port (connMgr w)
              = GetConnectionInfo port (connMgr w)) by done.
  assert (Hnil : ∀ w0, touches request w w0 [] →
            ∃ added, touches request w w0 added ∧ (length added ≤ 1)%nat
                     ∧ Forall (λ a, APIResponse.RequestID a
                                    = UnsendData.ID request) added).
  { intros w0 Hw0. exists []. split; [done|]. split; [cbn; lia|constructor]. }
  unfold Process, MarkAsSending.
  destruct (UpdateRequestStatus_frame (driver env AtMarkAsSending)
              (time_Now env AtMarkAsSending) (UnsendData.ID request)
              StatusSending None (db w)) as [Hr1 Ha1].
  destruct (UpdateRequestStatus _ _ _ StatusSending None (db w))
    as [db1 err1].
  cbn [fst] in Hr1, Ha1. cbn [db connMgr log].
  assert (T1 : ∀ l, touches request w (mkWorld db1 (connMgr w) l) []).
  { intros l. apply touches_world; [done| |done]. by rewrite app_nil_r. }
  destruct err1 as [e1|].
  { apply Hnil. cbn [abort fst]. apply handleError_touches, T1. }
  destruct (transformer.ValidateBinaryData _) as [e2|].
  { apply Hnil. cbn [abort fst]. apply handleError_touches, T1. }
  destruct (transformer.BinaryToAPIRequest _ _ _ _) as [apiRequest|e3].
  2: { apply Hnil. cbn [abort fst]. apply handleError_touches, T1. }
  destruct (SendRequest cfg (upstream env) apiRequest)
    as [events [apiResponse|e4]]; cbn [db connMgr log].
  2: { apply Hnil. cbn [abort fst]. apply handleError_touches, T1. }
  destruct (transformer.ValidateAPIResponse _) as [e5|].
  { apply Hnil. cbn [abort fst]. apply handleError_touches, T1. }
  set (dbResponse := APIResponse.mk 0 _ _ _ _).
  destruct (InsertAPIResponse_frame (driver env AtInsertAPIResponse)
              dbResponse db1) as (Hr6 & added & Ha6 & Hadded).
  destruct (InsertAPIResponse _ dbResponse db1) as [db6 e6].
  cbn [fst] in Hr6, Ha6. cbn [db connMgr log].
  assert (Hcount : (length added ≤ 1)%nat
                   ∧ Forall (λ a, APIResponse.RequestID a
                                  = UnsendData.ID request) added).
  { destruct Hadded as [->| ->]; (split; [cbn; lia|]);
      repeat constructor. }
  assert (T6 : ∀ d cm l,
            (∀ id, id ≠ UnsendData.ID request →
                   unsend_data d !! id = unsend_data db6 !! id) →
            api_responses d = api_responses db6 →
            (∀ port, port ≠ UnsendData.ClientPort request →
               GetConnection port cm = GetConnection port (connMgr w)
               ∧ GetConnectionInfo port cm
                 = GetConnectionInfo port (connMgr w)) →
            touches request w (mkWorld d cm l) added).
  { intros d cm l Hd Had Hcm. apply touches_world; [|by rewrite Had, Ha6, Ha1|done].
    intros id Hne. rewrite Hd, Hr6 by exact Hne. by apply Hr1. }
  destruct (transformer.APIResponseToBinary _) as [binaryResponse|e7].
  2: { exists added. split; [|exact Hcount]. cbn [abort fst].
       apply handleError_touches, T6; done. }
  pose proof (sendToClient_other env (UnsendData.ClientPort request)
                binaryResponse (connMgr w)) as Hcm8.
  destruct (sendToClient env _ binaryResponse (connMgr w)) as [cm8 err8].
  cbn [fst] in Hcm8. cbn [db connMgr log].
  destruct err8 as [e8|].
  { exists added. split; [|exact Hcount]. cbn [abort fst].
    apply handleError_touches, T6; done. }
  unfold MarkAsComplete.
  destruct (UpdateRequestStatus_frame (driver env AtMarkAsComplete)
              (time_Now env AtMarkAsComplete) (UnsendData.ID request)
              StatusComplete None db6) as [Hr9 Ha9].
  destruct (UpdateRequestStatus _ _ _ StatusComplete None db6) as [db9 e9].
  cbn [fst] in Hr9, Ha9. cbn [db connMgr log].
  destruct (DeleteProcessedRequest_frame (driver env AtDeleteProcessedRequest)
              (rows_affected env) (UnsendData.ID request) db9) as [Hr10 Ha10].
  destruct (DeleteProcessedRequest _ _ _ db9) as [db10 e10].
  cbn [fst] in Hr10, Ha10. cbn [db connMgr log fst].
  exists added. split; [|exact Hcount].
  apply T6; [|by rewrite Ha10|done].
  intros id Hne. rewrite Hr10, Hr9 by exact Hne. done.
Qed.

(** The result always names its request, and is a success exactly when it
    carries no error. *)
Lemma Process_result_fields (cfg : APIConfig) (env : Env)
    (request : UnsendData.t) (w : World) :
  ProcessingResult.RequestID (Process cfg env request w).2
  = UnsendData.ID request
  ∧ ProcessingResult.ClientPort (Process cfg env request w).2
    = UnsendData.ClientPort request
  ∧ (ProcessingResult.Success (Process cfg env request w).2 = true
     ↔ ProcessingResult.Error (Process cfg env request w).2 = None).
Proof.
  unfold Process, MarkAsSending.
  destruct (UpdateRequestStatus _ _ _ StatusSending None (db w))
    as [db1 [e1|]]; [cbn; by intuition|].
  destruct (transformer.ValidateBinaryData _); [cbn; by intuition|].
  destruct (transformer.BinaryToAPIRequest _ _ _ _); [|cbn; by intuition].
  destruct (SendRequest cfg (upstream env) _) as [events [apiResponse|e4]];
    [|cbn; by intuition].
  destruct (transformer.ValidateAPIResponse _); [cbn; by intuition|].
  destruct (InsertAPIResponse _ _ _) as [db6 e6].
  destruct (transformer.APIResponseToBinary _); [|cbn; by intuition].
  destruct (sendToClient env _ _ _) as [cm8 [e8|]]; [cbn; by intuition|].
  destruct (MarkAsComplete _ _ _ _) as [db9 e9].
  destruct (DeleteProcessedRequest _ _ _ _) as [db10 e10].
  cbn. by intuition.
Qed.

(** X25.  Whatever the outside does during a run of [Process]: the rows of
    the other jobs are as before; the response table keeps its records and
    gains at most one, for this request, at its end; the registry entries
    of the other ports are as before; and the result names the request and
    its client port, and is a success exactly when it carries no error. *)
Theorem Process_touches_only_its_job (cfg : APIConfig) (env : Env)
    (request : UnsendData.t) (w : World) :
  (∃ added,
     touches request w (Process cfg env request w).1 added
     ∧ (length added ≤ 1)%nat
     ∧ Forall (λ a, APIResponse.RequestID a = UnsendData.ID request) added)
  ∧ ProcessingResult.RequestID (Process cfg env request w).2
    = UnsendData.ID request
  ∧ ProcessingResult.ClientPort (Process cfg env request w).2
    = UnsendData.ClientPort request
  ∧ (ProcessingResult.Success (Process cfg env request w).2 = true
     ↔ ProcessingResult.Error (Process cfg env request w).2 = None).
Proof.
  split; [apply Process_touches | apply Process_result_fields].
Qed.

End processor_frame.

Section processor_paths.
Import golang models libs config database server api worker.
Context `{Encoding}.

(** The failure handler writes to the staging table only: the response
    table and the registry are as before, and it makes its two calls
    whatever the driver answers. *)
Lemma handleError_quiet (env : Env) (requestID : Z) (msg : string)
    (w : World) :
  log (handleError env requestID msg w)
  = log w ++ [RepoCall AtMarkAsFailed; RepoCall AtIncrementRetryCount]
  ∧ connMgr (handleError env requestID msg w) = connMgr w
  ∧ api_responses (db (handleError env requestID msg w))
    = api_responses (db w).
Proof.
  unfold handleError, MarkAsFailed, UpdateRequestStatus, IncrementRetryCount.
  by destruct (driver env AtMarkAsFailed),
    (driver env AtIncrementRetryCount).
Qed.

Lemma sendToClient_no_entry (env : Env) (clientPort : Z) (data : list byte)
    (cm : ConnectionManager) :
  GetConnection clientPort cm = None →
  ∃ e, sendToClient env clientPort data cm = (cm, Some e).
Proof.
  intros Hgone. unfold sendToClient.
  destruct (protocol.EncodeMessage _ data) as [message|e]; [|by eexists].
  rewrite (SendData_no_entry _ _ _ _ _ Hgone). by eexists.
Qed.

(** X26.  The client has gone.  Steps 1-7 succeed (the upstream answered
    and the answer converts), but the registry holds no connection for the
    job's port.  Then step 8 fails whatever the payload: the result is a
    failure that carries the binary response; the registry is as before;
    the row is [failed] with the error and its retry count one higher
    (the failure handler's writes succeeding); the run made no call of
    [MarkAsComplete] or [DeleteProcessedRequest]; and the record of the
    upstream's answer, when its insert succeeded, stays in the response
    table. *)
Theorem Process_client_gone (cfg : APIConfig) (env : Env)
    (request : UnsendData.t) (w : World) (r0 : UnsendData.t)
    (apiRequest : APIRequest.t) (events : list ClientEvent)
    (apiResponse : APIResponsePayload.t) (binaryResponse : list byte) :
  row_of (UnsendData.ID request) w = Some r0 →
  driver env AtMarkAsSending = None →
  transformer.ValidateBinaryData (UnsendData.BinaryData request) = None →
  transformer.BinaryToAPIRequest (time_Now env AtBinaryToAPIRequest)
    (UnsendData.ID request) (UnsendData.ClientPort request)
    (UnsendData.BinaryData request) = inl apiRequest →
  SendRequest cfg (upstream env) apiRequest = (events, inl apiResponse) →
  transformer.ValidateAPIResponse (Some apiResponse) = None →
  transformer.APIResponseToBinary (Some apiResponse) = inl binaryResponse →
  GetConnection (UnsendData.ClientPort request) (connMgr w) = None →
  driver env AtMarkAsFailed = None →
  driver env AtIncrementRetryCount = None →
  ∃ e,
    ProcessingResult.Success (Process cfg env request w).2 = false
    ∧ ProcessingResult.Error (Process cfg env request w).2
      = Some ("failed to send response to client: " +:+ e)
    ∧ ProcessingResult.Response (Process cfg env request w).2
      = binaryResponse
    ∧ connMgr (Process cfg env request w).1 = connMgr w
    ∧ log (Process cfg env request w).1
      = log w ++ RepoCall AtMarkAsSending :: map Client events
          ++ [RepoCall AtInsertAPIResponse; RepoCall AtMarkAsFailed;
              RepoCall AtIncrementRetryCount]
    ∧ row_of (UnsendData.ID request) (Process cfg env request w).1
      = Some (failed_row r0 (time_Now env AtIncrementRetryCount)
                ("failed to send response to client: " +:+ e))
    ∧ (driver env AtInsertAPIResponse = None →
       api_responses (db (Process cfg env request w).1)
       = api_responses (db w)
           ++ [APIResponse.mk 0 (UnsendData.ID request)
                 (APIResponsePayload.StatusCode apiResponse)
                 (list_byte_of_string (APIResponsePayload.Message apiResponse))
                 (time_Now env AtInsertAPIResponse)]).
Proof.
  intros Hrow H1 H2 H3 H4 H5 H7 Hgone Hf Hi.
  destruct (sendToClient_no_entry env (UnsendData.ClientPort request)
              binaryResponse (connMgr w) Hgone) as [e H8].
  exists e. unfold Process.
  pose proof (MarkAsSending_row_of env (UnsendData.ID request) w r0 Hrow H1)
    as Hrow1.
  assert (Hapi1 : api_responses
                    (MarkAsSending (driver env AtMarkAsSending)
                       (time_Now env AtMarkAsSending) (UnsendData.ID request)
                       (db w)).1 = api_responses (db w)).
  { apply UpdateRequestStatus_frame. }
  assert (Herr1 : (MarkAsSending (driver env AtMarkAsSending)
                     (time_Now env AtMarkAsSending) (UnsendData.ID request)
                     (db w)).2 = None).
  { by rewrite H1. }
  destruct (MarkAsSending _ _ _ (db w)) as [db1 err1].
  cbn [fst snd] in Hrow1, Hapi1, Herr1. subst err1.
  rewrite H2, H3. cbn [db connMgr log]. rewrite H4, H5. cbn [db connMgr log].
  set (dbResponse := APIResponse.mk 0 _ _ _ _).
  assert (H6 : unsend_data (InsertAPIResponse (driver env AtInsertAPIResponse)
                              dbResponse db1).1 = unsend_data db1
               ∧ (driver env AtInsertAPIResponse = None →
                  api_responses (InsertAPIResponse
                                   (driver env AtInsertAPIResponse)
                                   dbResponse db1).1
                  = api_responses db1 ++ [dbResponse])).
  { unfold InsertAPIResponse.
    by destruct (driver env AtInsertAPIResponse). }
  destruct (InsertAPIResponse _ dbResponse db1) as [db6 e6].
  cbn [fst] in H6. destruct H6 as [Hrows6 Hapi6]. cbn [db connMgr log].
  rewrite H7, H8. cbn [db connMgr log abort fst snd].
  set (w8 := mkWorld db6 (connMgr w) _).
  assert (Hrow8 : row_of (UnsendData.ID request) w8
                  = Some (marked_row r0 StatusSending
                            (time_Now env AtMarkAsSending))).
  { unfold row_of, w8. cbn [db]. by rewrite Hrows6. }
  destruct (handleError_effect env (UnsendData.ID request)
              ("failed to send response to client: " +:+ e) w8 _ Hrow8 Hf Hi)
    as (Hfailed & _ & _).
  destruct (handleError_quiet env (UnsendData.ID request)
              ("failed to send response to client: " +:+ e) w8)
    as (Hlog & Hcm & Hapi).
  rewrite Hfailed, Hlog, Hcm, Hapi, failed_row_marked.
  unfold w8. cbn [log connMgr db ProcessingResult.Success
                  ProcessingResult.Error ProcessingResult.Response].
  split; [done|]. split; [done|]. split; [done|]. split; [done|].
  split; [by rewrite <- !app_assoc|]. split; [done|].
  intros Hins. by rewrite (Hapi6 Hins), Hapi1.
Qed.

(** X27.  A payload the transformer cannot take never reaches the
    upstream.  When the staged payload has fewer than four bytes (step 2
    rejects the empty one, step 3 the others) or more than 10 MiB (step 2),
    the run fails whatever the database answers: its calls are
    [MarkAsSending] and those of the failure handler, so no attempt on the
    upstream was made; nothing is added to the response table; and the
    registry is as before. *)
Theorem Process_rejects_payload (cfg : APIConfig) (env : Env)
    (request : UnsendData.t) (w : World) :
  Z.of_nat (length (UnsendData.BinaryData request)) < 4
  ∨ 10 * 1024 * 1024 < Z.of_nat (length (UnsendData.BinaryData request)) →
  ProcessingResult.Success (Process cfg env request w).2 = false
  ∧ is_Some (ProcessingResult.Error (Process cfg env request w).2)
  ∧ log (Process cfg env request w).1
    = log w ++ [RepoCall AtMarkAsSending; RepoCall AtMarkAsFailed;
                RepoCall AtIncrementRetryCount]
  ∧ api_responses (db (Process cfg env request w).1) = api_responses (db w)
  ∧ connMgr (Process cfg env request w).1 = connMgr w.
Proof.
  intros Hsize.
  assert (Habort : ∀ d result msg,
            api_responses d = api_responses (db w) →
            ProcessingResult.Success result = false →
            let out := abort env request result msg
                         (mkWorld d (connMgr w)
                            (log w ++ [RepoCall AtMarkAsSending])) in
            ProcessingResult.Success out.2 = false
            ∧ is_Some (ProcessingResult.Error out.2)
            ∧ log out.1
              = log w ++ [RepoCall AtMarkAsSending; RepoCall AtMarkAsFailed;
                          RepoCall AtIncrementRetryCount]
            ∧ api_responses (db out.1) = api_responses (db w)
            ∧ connMgr out.1 = connMgr w).
  { intros d result msg Hd Hres. cbv zeta. unfold abort. cbn [fst snd].
    destruct (handleError_quiet env (UnsendData.ID request) msg
                (mkWorld d (connMgr w) (log w ++ [RepoCall AtMarkAsSending])))
      as (Hlog & Hcm & Hapi).
    rewrite Hlog, Hcm, Hapi.
    cbn [log connMgr db ProcessingResult.Success ProcessingResult.Error].
    split; [exact Hres|]. split; [by eexists|].
    split; [by rewrite <- app_assoc|]. by split. }
  unfold Process, MarkAsSending.
  destruct (UpdateRequestStatus_frame (driver env AtMarkAsSending)
              (time_Now env AtMarkAsSending) (UnsendData.ID request)
              StatusSending None (db w)) as [_ Ha1].
  destruct (UpdateRequestStatus _ _ _ StatusSending None (db w))
    as [db1 err1].
  cbn [fst] in Ha1. cbn [db connMgr log].
  destruct err1 as [e1|]; [by apply Habort|].
  unfold transformer.ValidateBinaryData.
  destruct (Z.eqb_spec (Z.of_nat (length (UnsendData.BinaryData request))) 0)
    as [Hzero|Hzero]; [by apply Habort|].
  destruct (Z.gtb_spec (Z.of_nat (length (UnsendData.BinaryData request)))
              (10 * 1024 * 1024)) as [Hbig|Hbig]; [by apply Habort|].
  unfold transformer.BinaryToAPIRequest, transformer.parseBinaryData.
  destruct (Z.eqb_spec (Z.of_nat (length (UnsendData.BinaryData request))) 0)
    as [?|_]; [done|].
  destruct (Z.ltb_spec (Z.of_nat (length (UnsendData.BinaryData request))) 4)
    as [Hshort|Hlong]; [by apply Habort|].
  lia.
Qed.

Lemma ProcessBatch_from_frame (cfg : APIConfig) (envs : nat → Env)
    (requests : list UnsendData.t) :
  ∀ (first : nat) (w : World),
    Forall2 (λ req res,
               ProcessingResult.RequestID res = UnsendData.ID req
               ∧ ProcessingResult.ClientPort res = UnsendData.ClientPort req
               ∧ (ProcessingResult.Success res = true
                  ↔ ProcessingResult.Error res = None))
      requests (ProcessBatch_from cfg envs first requests w).2
    ∧ (∀ id, id ∉ UnsendData.ID <$> requests →
         row_of id (ProcessBatch_from cfg envs first requests w).1
         = row_of id w)
    ∧ (∃ added,
         api_responses (db (ProcessBatch_from cfg envs first requests w).1)
         = api_responses (db w) ++ added
         ∧ (length added ≤ length requests)%nat
         ∧ Forall (λ a, APIResponse.RequestID a ∈ UnsendData.ID <$> requests)
             added)
    ∧ (∀ port, port ∉ UnsendData.ClientPort <$> requests →
         GetConnection port
           (connMgr (ProcessBatch_from cfg envs first requests w).1)
         = GetConnection port (connMgr w)
         ∧ GetConnectionInfo port
             (connMgr (ProcessBatch_from cfg envs first requests w).1)
           = GetConnectionInfo port (connMgr w)).
Proof.
  induction requests as [|req reqs IH]; intros first w;
    cbn [ProcessBatch_from].
  - split; [constructor|]. split; [done|]. split; [|done].
    exists []. rewrite app_nil_r. split; [done|]. split; [done|constructor].
  - destruct (Process_touches cfg (envs first) req w)
      as (added1 & (Hrows & Hapi & Hcm) & Hlen & Hall).
    pose proof (Process_result_fields cfg (envs first) req w) as Hres.
    destruct (Process cfg (envs first) req w) as [w1 result].
    cbn [fst snd] in Hrows, Hapi, Hcm, Hres.
    specialize (IH (S first) w1).
    destruct (ProcessBatch_from cfg envs (S first) reqs w1) as [w2 results].
    cbn [fst snd] in IH |- *.
    destruct IH as (IH1 & IH2 & (added2 & IHapi & IHlen & IHall) & IH4).
    split; [by constructor|]. split; [|split].
    + intros id Hid. rewrite fmap_cons in Hid.
      apply not_elem_of_cons in Hid as [Hne Hid].
      rewrite IH2 by exact Hid. by apply Hrows.
    + exists (added1 ++ added2). rewrite IHapi, Hapi, app_assoc.
      split; [done|]. split; [rewrite length_app; cbn [length]; lia|].
      rewrite fmap_cons. apply Forall_app. split.
      * eapply Forall_impl; [exact Hall|]. intros a ->. by left.
      * eapply Forall_impl; [exact IHall|]. intros a Ha. by right.
    + intros port Hport. rewrite fmap_cons in Hport.
      apply not_elem_of_cons in Hport as [Hne Hport].
      destruct (IH4 port Hport) as [-> ->]. by apply Hcm.
Qed.

(** X28.  A batch.  [ProcessBatch] returns one result per request, in the
    order of the requests, each naming its request and client port and a
    success exactly when it carries no error, whatever the outside does
    during each run; the rows of the jobs that are not in the batch are as
    before; the response table keeps its records and gains at most one per
    request, each for a request of the batch; and the registry entries of
    the ports no request of the batch names are as before. *)
Theorem ProcessBatch_frame (cfg : APIConfig) (envs : nat → Env)
    (requests : list UnsendData.t) (w : World) :
  Forall2 (λ req res,
             ProcessingResult.RequestID res = UnsendData.ID req
             ∧ ProcessingResult.ClientPort res = UnsendData.ClientPort req
             ∧ (ProcessingResult.Success res = true
                ↔ ProcessingResult.Error res = None))
    requests (ProcessBatch cfg envs requests w).2
  ∧ (∀ id, id ∉ UnsendData.ID <$> requests →
       row_of id (ProcessBatch cfg envs requests w).1 = row_of id w)
  ∧ (∃ added,
       api_responses (db (ProcessBatch cfg envs requests w).1)
       = api_responses (db w) ++ added
       ∧ (length added ≤ length requests)%nat
       ∧ Forall (λ a, APIResponse.RequestID a ∈ UnsendData.ID <$> requests)
           added)
  ∧ (∀ port, port ∉ UnsendData.ClientPort <$> requests →
       GetConnection port (connMgr (ProcessBatch cfg envs requests w).1)
       = GetConnection port (connMgr w)
       ∧ GetConnectionInfo port
           (connMgr (ProcessBatch cfg envs requests w).1)
         = GetConnectionInfo port (connMgr w)).
Proof. apply ProcessBatch_from_frame. Qed.

End processor_paths.

Section processor_paths_run.
Import golang models libs config database server api worker scenario examples.

(** Row 42 when its client has disconnected before the answer came: the
    upstream was called once, its answer is recorded, and the row is
    [failed] with a retry count of one. *)
Lemma Process_client_gone_witness :
  GetConnection 54321 (connMgr world_client_gone) = None
  ∧ ∃ e,
      ProcessingResult.Error
        (@Process scenario_encoding Default_API env_ok row_42
           world_client_gone).2
      = Some ("failed to send response to client: " +:+ e)
      ∧ log (@Process scenario_encoding Default_API env_ok row_42
               world_client_gone).1
        = [RepoCall AtMarkAsSending; Client (Attempt 0);
           RepoCall AtInsertAPIResponse; RepoCall AtMarkAsFailed;
           RepoCall AtIncrementRetryCount]
      ∧ UnsendData.RetryCount
          <$> row_of 42
                (@Process scenario_encoding Default_API env_ok row_42
                   world_client_gone).1
        = Some 1
      ∧ length (api_responses
                  (db (@Process scenario_encoding Default_API env_ok row_42
                         world_client_gone).1)) = 1%nat.
Proof.
  split; [reflexivity|].
  destruct (@Process_client_gone scenario_encoding Default_API env_ok row_42
              world_client_gone row_42 _ [Attempt 0] reply_42 _
              eq_refl eq_refl eq_refl eq_refl eq_refl eq_refl eq_refl eq_refl
              eq_refl eq_refl)
    as (e & _ & Herr & _ & _ & Hlog & Hrow & Hapi).
  exists e. split; [exact Herr|]. split; [exact Hlog|].
  split; [exact (f_equal (fmap UnsendData.RetryCount) Hrow)|].
  by rewrite (Hapi eq_refl).
Defined.

(** A staged payload of three bytes: the run fails without a call of the
    upstream. *)
Lemma Process_rejects_payload_witness :
  Z.of_nat (length (UnsendData.BinaryData row_short)) < 4
  ∧ log (@Process scenario_encoding Default_API env_ok row_short
           world_short).1
    = [RepoCall AtMarkAsSending; RepoCall AtMarkAsFailed;
       RepoCall AtIncrementRetryCount].
Proof.
  split; [reflexivity|].
  apply (@Process_rejects_payload scenario_encoding Default_API env_ok
           row_short world_short (or_introl eq_refl)).
Defined.

End processor_paths_run.

(** ** The worker pool, continued *)

Section pool_queue.
Import golang models config worker scenario examples.

(** X29.  In a running pool (context live, job channel open) [Submit]
    loses no job it accepts, whatever the scheduler's choice.  When a
    worker is parked in its receive the job goes to that worker and the
    queue stays empty; when none is and the queue has room the job becomes
    the newest of the queue, behind the jobs already there; in both cases
    [Submit] returns nil.  The pool stays well formed: the queue never
    holds more than [QueueSize] jobs. *)
Theorem Submit_accepted_job_is_kept (pick_send : bool)
    (job : ProcessingJob.t) (p : Pool) :
  pool_wf p →
  ctx_done p = false →
  is_closed (jobs p) = false →
  pool_wf (Submit pick_send job p).1
  ∧ ((0 < receivers (jobs p))%nat →
     (Submit pick_send job p).2 = Returns None
     ∧ taken (Submit pick_send job p).1 = taken p ++ [job]
     ∧ buf (jobs (Submit pick_send job p).1) = []
     ∧ S (receivers (jobs (Submit pick_send job p).1)) = receivers (jobs p))
  ∧ (receivers (jobs p) = 0%nat →
     Z.of_nat (length (buf (jobs p))) < QueueSize (pool_config p) →
     (Submit pick_send job p).2 = Returns None
     ∧ buf (jobs (Submit pick_send job p).1) = buf (jobs p) ++ [job]
     ∧ taken (Submit pick_send job p).1 = taken p).
Proof.
  intros Hwf Hrun Hopen. split; [by apply Submit_wf|].
  destruct Hwf as [(Hcap & Hlen & Hrecv) Hcfg].
  unfold Submit, can_send, send. rewrite Hrun, Hopen. cbn [orb negb].
  split.
  - intros Hparked. specialize (Hrecv Hparked).
    destruct (Nat.ltb_spec 0 (receivers (jobs p))) as [_|?]; [|lia].
    cbn [orb andb fst snd jobs taken buf receivers].
    split; [done|]. split; [done|]. split; [done|lia].
  - intros Hnone Hroom. rewrite Hnone. cbn [Nat.ltb Nat.leb orb].
    rewrite <- Hcfg in Hroom.
    destruct (Z.ltb_spec (Z.of_nat (length (buf (jobs p)))) (cap (jobs p)))
      as [_|?]; [|lia].
    cbn [andb fst snd jobs taken buf]. by rewrite app_nil_r.
Qed.

Lemma pool_with_room_wf : pool_wf pool_with_room.
Proof. repeat split; cbn; lia. Defined.

Lemma pool_with_parked_worker_wf : pool_wf pool_with_parked_worker.
Proof. repeat split; cbn; lia. Defined.

(** [job_43] submitted behind [job_42] in a queue of two, and to a pool
    with a parked worker. *)
Lemma Submit_accepted_job_is_kept_witness :
  (Submit true job_43 pool_with_room).2 = Returns None
  ∧ buf (jobs (Submit true job_43 pool_with_room).1) = [job_42; job_43]
  ∧ taken (Submit false job_43 pool_with_parked_worker).1 = [job_43].
Proof.
  destruct (Submit_accepted_job_is_kept true job_43 pool_with_room
              pool_with_room_wf eq_refl eq_refl) as (_ & _ & Hroom).
  destruct (Hroom eq_refl eq_refl) as (Hnil & Hbuf & _).
  destruct (Submit_accepted_job_is_kept false job_43 pool_with_parked_worker
              pool_with_parked_worker_wf eq_refl eq_refl)
    as (_ & Hparked & _).
  destruct (Hparked ltac:(cbn; lia)) as (_ & Htaken & _).
  split; [exact Hnil|]. split; [exact Hbuf|exact Htaken].
Defined.

(** X30.  [Stop] ends the pool once.  When it returns, the context is
    cancelled, both channels are closed and no goroutine of the pool is
    left; every job that was queued has either been received by a worker
    or is still in the queue, in order, where no one will receive it; and
    a second [Stop] panics, closing the closed job channel. *)
Theorem Stop_ends_pool_once (drained drained' : nat) (p p' : Pool) :
  Stop drained p = Returns p' →
  ctx_done p' = true
  ∧ is_closed (jobs p') = true
  ∧ is_closed (results p') = true
  ∧ running p' = 0%nat
  ∧ taken p' ++ buf (jobs p') = taken p ++ buf (jobs p)
  ∧ Stop drained' p' = Panics "close of closed channel".
Proof.
  unfold Stop, close.
  destruct (is_closed (jobs p)); [discriminate|].
  destruct (is_closed (results p)); [discriminate|].
  intros [= <-]. cbn [ctx_done jobs results running taken buf is_closed cap].
  split; [done|]. split; [done|]. split; [done|]. split; [done|].
  split; [|done]. by rewrite <- app_assoc, take_drop.
Qed.

(** The pool with [job_42] queued, stopped before a worker received it:
    the job is left in the queue. *)
Lemma Stop_ends_pool_once_witness :
  ∃ p', Stop 0 pool_with_room = Returns p'
        ∧ buf (jobs p') = [job_42]
        ∧ Stop 0 p' = Panics "close of closed channel".
Proof.
  eexists. split; [reflexivity|]. split; [reflexivity|].
  eapply (Stop_ends_pool_once 0 0 pool_with_room _ eq_refl).
Defined.

End pool_queue.
